(** * Bank reconciliation engine of [scripts/reconcile_bank.py]

    A shallow embedding of the period loader, the two-pass transaction
    matcher, the item classifier, the adjustment proposer and the
    reconciliation calculator, and of the column mapping of
    [utils/excel_reader.py] the loader reads its sheets through, with the
    properties stated for them.

    Conventions of the embedding.
    - A Python/NumPy double is a value of [float]: either [NaN] or a finite
      number carried as an exact rational.  Rounding error, infinities and
      signed zero are outside the model; [NaN] is kept because the code
      produces and propagates it.
    - A [pd.Timestamp] is an integer count of nanoseconds, [NaT] is [None].
    - A string is a string of bytes; [upper], [lower] and [strip] act on the
      ASCII letters and white space.
    - A DataFrame with a [RangeIndex] is the list of its rows, the index
      label of a row being its position; a filtered frame keeps the labels
      and is a list of (label, row) pairs.
    - A raw spreadsheet cell is known by what [pd.to_numeric],
      [pd.to_datetime] and [str] return on it.
    - Writing the workbook is not modelled; of the sheet writers only the
      totals and the double-entry check of the adjusting entries are, and
      those in binary64 with its rounding and overflow ([double]).
    - Of a sheet as [map_columns] sees it only the column labels are kept. *)

From Stdlib Require Import QArith Qpower Qcanon Qround Qabs Qcabs ZArith Lia Ascii String.
From stdpp Require Import base decidable list gmap strings pretty.

Local Open Scope Z_scope.

(** ** Doubles *)

Inductive float : Type :=
  | Fin (q : Qc)
  | NaN.

Definition zero : float := Fin (Q2Qc 0).

Definition of_Z (z : Z) : float := Fin (Q2Qc (inject_Z z)).

(** [x + y] and [x - y]: NaN is absorbing. *)
Definition fadd (x y : float) : float :=
  match x, y with
  | Fin a, Fin b => Fin (a + b)%Qc
  | _, _ => NaN
  end.

Definition fsub (x y : float) : float :=
  match x, y with
  | Fin a, Fin b => Fin (a - b)%Qc
  | _, _ => NaN
  end.

(** [abs(x)] *)
Definition fabs (x : float) : float :=
  match x with
  | Fin a => Fin (Qcabs a)
  | NaN => NaN
  end.

(** The comparisons [==], [<] and [>]: every comparison with NaN is
    false. *)
Definition feqb (x y : float) : bool :=
  match x, y with
  | Fin a, Fin b => Qeq_bool a b
  | _, _ => false
  end.

Definition fltb (x y : float) : bool :=
  match x, y with
  | Fin a, Fin b => negb (Qle_bool b a)
  | _, _ => false
  end.

Definition fgtb (x y : float) : bool := fltb y x.

(** Round half to even to an integer. *)
Definition round_half_even (q : Q) : Z :=
  let f := Qfloor q in
  match Qcompare (q - inject_Z f) (1 # 2) with
  | Lt => f
  | Gt => f + 1
  | Eq => if Z.even f then f else f + 1
  end.

(** [round(x, 2)], of Python on a [float] and of NumPy on a [float64]: in
    exact arithmetic both are the nearest multiple of 0.01, ties to even. *)
Definition round2 (x : float) : float :=
  match x with
  | Fin a => Fin (Q2Qc (inject_Z (round_half_even (a * Q2Qc (inject_Z 100))%Qc) / inject_Z 100))
  | NaN => NaN
  end.

(** [Series.sum()]: NaN entries are skipped, the sum of nothing is 0. *)
Definition sum_step (acc x : float) : float :=
  match x with
  | Fin _ => fadd acc x
  | NaN => acc
  end.

Definition series_sum (xs : list float) : float := foldl sum_step zero xs.

(** [Series.fillna(0)] on one value. *)
Definition fillna0 (x : float) : float :=
  match x with
  | Fin a => Fin a
  | NaN => zero
  end.

(** ** Doubles with rounding and overflow *)

(** The double-entry check of the adjusting entries turns on what the two
    running totals are at the end of the loop, overflow included, so the
    totals are kept in binary64 itself: a finite value (always one that
    binary64 has, being the rounding of an exact result), an infinity, or
    NaN.  The sign of a zero is not kept. *)
Inductive double : Type :=
  | DFin (q : Qc)
  | DInf (negative : bool)
  | DNaN.

Definition pow2 (k : Z) : Q := Qpower (2 # 1) k.

(** The [e] with [2^e <= a < 2^(e+1)], for [a] above zero. *)
Definition floor_log2 (a : Q) : Z :=
  let e := Z.log2 (Qnum a) - Z.log2 (Zpos (Qden a)) in
  if Qle_bool (pow2 e) a then e else e - 1.

(** Rounding of an exact result to binary64, to nearest, ties to even: 53
    bits above [2^-1022], multiples of [2^-1074] below, an infinity from
    [2^1024 - 2^970] on. *)
Definition rnd64 (q : Qc) : double :=
  if Qeq_bool q 0 then DFin (Q2Qc 0)
  else
    let a := Qabs q in
    let u := Z.max (floor_log2 a - 52) (-1074) in
    let r := (inject_Z (round_half_even (a / pow2 u)) * pow2 u)%Q in
    if Qle_bool (pow2 1024) r then DInf (negb (Qle_bool 0 q))
    else DFin (Q2Qc (if Qle_bool 0 q then r else - r)).

Definition dzero : double := DFin (Q2Qc 0).

(** The binary64 value of a number of the frames. *)
Definition of_float (x : float) : double :=
  match x with
  | Fin q => rnd64 q
  | NaN => DNaN
  end.

Definition dneg (x : double) : double :=
  match x with
  | DFin a => DFin (- a)%Qc
  | DInf s => DInf (negb s)
  | DNaN => DNaN
  end.

(** [x + y]: the exact sum rounded; an infinity absorbs finite values, the
    two infinities add to NaN. *)
Definition dadd (x y : double) : double :=
  match x, y with
  | DFin a, DFin b => rnd64 (a + b)%Qc
  | DInf s, DFin _ => DInf s
  | DFin _, DInf s => DInf s
  | DInf s, DInf s' => if Bool.eqb s s' then DInf s else DNaN
  | _, _ => DNaN
  end.

(** [x - y] *)
Definition dsub (x y : double) : double := dadd x (dneg y).

(** [round(x, 2)] of Python on a [float]: the double nearest to the exact
    value rounded half to even at two decimals; infinities and NaN come
    back as they are.  The check only ever rounds zero or NaN. *)
Definition dround2 (x : double) : double :=
  match x with
  | DFin a =>
      rnd64 (Q2Qc (inject_Z (round_half_even (a * Q2Qc (inject_Z 100))%Qc) / inject_Z 100))
  | DInf s => DInf s
  | DNaN => DNaN
  end.

(** [x == y] *)
Definition deqb (x y : double) : bool :=
  match x, y with
  | DFin a, DFin b => Qeq_bool a b
  | DInf s, DInf s' => Bool.eqb s s'
  | _, _ => false
  end.

(** ** Strings *)

Local Open Scope string_scope.

Definition is_lower (c : ascii) : bool :=
  let n := nat_of_ascii c in (97 <=? n)%nat && (n <=? 122)%nat.

Definition is_upper (c : ascii) : bool :=
  let n := nat_of_ascii c in (65 <=? n)%nat && (n <=? 90)%nat.

Definition upper_char (c : ascii) : ascii :=
  if is_lower c then ascii_of_nat (nat_of_ascii c - 32) else c.

Definition lower_char (c : ascii) : ascii :=
  if is_upper c then ascii_of_nat (nat_of_ascii c + 32) else c.

Fixpoint map_string (f : ascii -> ascii) (s : string) : string :=
  match s with
  | EmptyString => EmptyString
  | String c s' => String (f c) (map_string f s')
  end.

(** [s.upper()] and [s.lower()] *)
Definition upper (s : string) : string := map_string upper_char s.
Definition lower (s : string) : string := map_string lower_char s.

(** The characters [str.strip()] removes: tab to carriage return, the
    four separators 28 to 31, and the space. *)
Definition is_space (c : ascii) : bool :=
  let n := nat_of_ascii c in
  ((9 <=? n)%nat && (n <=? 13)%nat) || ((28 <=? n)%nat && (n <=? 32)%nat).

Fixpoint lstrip (s : string) : string :=
  match s with
  | EmptyString => EmptyString
  | String c s' => if is_space c then lstrip s' else s
  end.

Fixpoint rstrip (s : string) : string :=
  match s with
  | EmptyString => EmptyString
  | String c s' =>
      match rstrip s' with
      | EmptyString => if is_space c then EmptyString else String c EmptyString
      | t => String c t
      end
  end.

(** [s.strip()] *)
Definition strip (s : string) : string := rstrip (lstrip s).

(** [pat in s] *)
Fixpoint str_in (pat s : string) : bool :=
  if String.prefix pat s then true
  else match s with
       | EmptyString => false
       | String _ s' => str_in pat s'
       end.

Definition str_eqb (a b : string) : bool := bool_decide (a = b).

Local Close Scope string_scope.
Local Open Scope Z_scope.

(** ** Spreadsheet cells and DataFrame rows *)

(** A raw cell of a sheet, given by what the three coercions the code
    applies to cells return on it: [pd.to_numeric(_, errors='coerce')]
    (NaN for a blank or non-numeric cell), [pd.to_datetime(_,
    errors='coerce')] (NaT for what is no date) and [str(_)]. *)
Record cell : Type := Cell {
  to_numeric : float;
  to_datetime : option Z;
  str : string
}.

(** A row of [cash_ledger.xlsx]: all six columns are required. *)
Record ledger_cells : Type := LedgerCells {
  lDate : cell; lReference : cell; lDescription : cell;
  lDebit : cell; lCredit : cell; lBalance : cell
}.

(** A row of [bank_statement.xlsx]: [Debit] and [Credit] are optional
    columns, [None] when the sheet does not have the column. *)
Record statement_cells : Type := StatementCells {
  sDate : cell; sReference : cell; sDescription : cell; sBalance : cell;
  sDebit : option cell; sCredit : option cell
}.

(** What [read_xlsx] returned: the mapped sheet, or an error message. *)
Inductive read_result (A : Type) : Type :=
  | Data (rows : list A)
  | Error (msg : string).
Arguments Data {A} rows.
Arguments Error {A} msg.

(** A row of [df] after the column coercions. *)
Record drow : Type := DRow {
  Date : option Z;
  Reference : string;
  Description : cell;
  Debit : float;
  Credit : float;
  Balance : float
}.

(** A row of [period_df]: the columns of [df] and the signed [_amount]. *)
Record row : Type := Row {
  base :> drow;
  _amount : float
}.

(** A frame that kept the index labels of the frame it was cut from. *)
Definition frame := list (nat * row).

(** Comparisons of a [Date] column against a [pd.Timestamp]; a comparison
    with NaT is false. *)
Definition date_ltb (d : option Z) (t : Z) : bool :=
  match d with Some x => x <? t | None => false end.

Definition date_leb (d : option Z) (t : Z) : bool :=
  match d with Some x => x <=? t | None => false end.

Definition date_geb (d : option Z) (t : Z) : bool :=
  match d with Some x => t <=? x | None => false end.

(** ** 1. Data loading *)

(** [filter_by_period]: the date column of [df] is already coerced, so the
    second [pd.to_datetime] leaves it unchanged. *)
Definition filter_by_period (df : list drow) (start_date end_date : Z) : list drow :=
  List.filter (fun r => date_geb (Date r) start_date && date_leb (Date r) end_date) df.

Definition ledger_coerce (x : ledger_cells) : drow :=
  {| Date := to_datetime (lDate x);
     Debit := fillna0 (to_numeric (lDebit x));
     Credit := fillna0 (to_numeric (lCredit x));
     Balance := to_numeric (lBalance x);
     Reference := strip (str (lReference x));
     Description := lDescription x |}.

(** [df.get(col, pd.Series(dtype=float))] coerced, 0-filled and assigned
    back to [df]: for an absent column the filled series is empty, and the
    assignment aligns it on the index of [df], which leaves NaN in every
    row. *)
Definition optional_numeric (c : option cell) : float :=
  match c with
  | Some c => fillna0 (to_numeric c)
  | None => NaN
  end.

Definition statement_coerce (x : statement_cells) : drow :=
  {| Date := to_datetime (sDate x);
     Debit := optional_numeric (sDebit x);
     Credit := optional_numeric (sCredit x);
     Balance := to_numeric (sBalance x);
     Reference := strip (str (sReference x));
     Description := sDescription x |}.

Definition loaded : Type := (list row * float * float)%type.

Definition load_cash_ledger (result : read_result ledger_cells)
    (period_start period_end : Z) : string + loaded :=
  match result with
  | Error err => inl err
  | Data data =>
      let df := ledger_coerce <$> data in
      let pre_period := List.filter (fun r => date_ltb (Date r) period_start) df in
      let opening_balance :=
        match last pre_period with
        | None => zero
        | Some r => Balance r
        end in
      let period_df := filter_by_period df period_start period_end in
      let period_df := List.filter (fun r => negb (str_eqb (Reference r) "OB")) period_df in
      let at_end := List.filter (fun r => date_leb (Date r) period_end) df in
      let closing_balance :=
        match last at_end with
        | Some r => Balance r
        | None => opening_balance
        end in
      let period_df := (fun r => Row r (fsub (Debit r) (Credit r))) <$> period_df in
      inr (period_df, opening_balance, closing_balance)
  end.

Definition load_bank_statement (result : read_result statement_cells)
    (period_start period_end : Z) : string + loaded :=
  match result with
  | Error err => inl err
  | Data data =>
      let df := statement_coerce <$> data in
      let pre_period := List.filter (fun r => date_ltb (Date r) period_start) df in
      let opening_balance :=
        match last pre_period with
        | None => zero
        | Some r => Balance r
        end in
      let period_df := filter_by_period df period_start period_end in
      let period_df := List.filter (fun r => negb (str_eqb (Reference r) "OB")) period_df in
      let at_end := List.filter (fun r => date_leb (Date r) period_end) df in
      let closing_balance :=
        match last at_end with
        | Some r => Balance r
        | None => opening_balance
        end in
      let period_df := (fun r => Row r (fsub (Credit r) (Debit r))) <$> period_df in
      inr (period_df, opening_balance, closing_balance)
  end.

(** ** 2. Matching *)

(** Max days apart for amount-only match. *)
Definition DATE_PROXIMITY_DAYS : Z := 3.

Definition ns_per_day : Z := 86400000000000.

(** [abs((b_date - s_date).days)]: the [days] of a [Timedelta] is the floor
    of the difference in days; with a NaT operand there is no number. *)
Definition days_diff (b_date s_date : option Z) : option Z :=
  match b_date, s_date with
  | Some b, Some s => Some (Z.abs ((b - s) / ns_per_day))
  | _, _ => None
  end.

(** [days_diff <= DATE_PROXIMITY_DAYS], false when a date is NaT. *)
Definition within_proximity (b_date s_date : option Z) : bool :=
  match days_diff b_date s_date with
  | Some d => d <=? DATE_PROXIMITY_DAYS
  | None => false
  end.

Inductive match_kind : Type := Exact | Probable.

Record match_pair : Type := MatchPair {
  book_idx : nat;
  bank_idx : nat;
  match_type : match_kind
}.

#[global] Instance match_kind_eq_dec : EqDecision match_kind.
Proof. solve_decision. Defined.

#[global] Instance match_pair_eq_dec : EqDecision match_pair.
Proof. solve_decision. Defined.

(** The rows of a frame with a [RangeIndex], each with its label. *)
Definition indexed (df : list row) : frame := zip (seq 0 (length df)) df.

(** Pass 1 condition: [b_ref == s_ref and b_amt == s_amt]. *)
Definition exact_test (b s : row) : bool :=
  str_eqb (upper (Reference b)) (upper (Reference s))
  && feqb (round2 (_amount b)) (round2 (_amount s)).

(** Pass 2 condition: [b_amt == s_amt] and the dates within the window. *)
Definition probable_test (b s : row) : bool :=
  feqb (round2 (_amount b)) (round2 (_amount s))
  && within_proximity (Date b) (Date s).

(** The inner loop over [bank_df.index]: skip the matched statement rows,
    stop at the first one that passes the test. *)
Fixpoint scan (test : row -> bool) (bank_matched : gset nat) (bank : frame) : option nat :=
  match bank with
  | [] => None
  | (si, s) :: rest =>
      if bool_decide (si ∈ bank_matched) then scan test bank_matched rest
      else if test s then Some si
      else scan test bank_matched rest
  end.

(** The three mutable locals of [match_transactions]. *)
Record mstate : Type := MState {
  pairs : list match_pair;
  book_matched : gset nat;
  bank_matched : gset nat
}.

Definition record_match (st : mstate) (bi si : nat) (k : match_kind) : mstate :=
  {| pairs := pairs st ++ [MatchPair bi si k];
     book_matched := {[bi]} ∪ book_matched st;
     bank_matched := {[si]} ∪ bank_matched st |}.

(** One iteration of the outer loop of pass 1. *)
Definition pass1_step (bank : frame) (st : mstate) (e : nat * row) : mstate :=
  match scan (exact_test e.2) (bank_matched st) bank with
  | Some si => record_match st e.1 si Exact
  | None => st
  end.

(** One iteration of the outer loop of pass 2. *)
Definition pass2_step (bank : frame) (st : mstate) (e : nat * row) : mstate :=
  if bool_decide (e.1 ∈ book_matched st) then st
  else match scan (probable_test e.2) (bank_matched st) bank with
       | Some si => record_match st e.1 si Probable
       | None => st
       end.

Definition pass1 (book bank : frame) : mstate :=
  foldl (pass1_step bank) (MState [] ∅ ∅) book.

Definition pass2 (book bank : frame) (st : mstate) : mstate :=
  foldl (pass2_step bank) st book.

(** [df[~df.index.isin(matched)]] *)
Definition unmatched (df : frame) (matched : gset nat) : frame :=
  List.filter (fun e => negb (bool_decide (e.1 ∈ matched))) df.

(** Both frames come from the loaders, which end with
    [reset_index(drop=True)]: their index is a [RangeIndex]. *)
Definition match_transactions (book_df bank_df : list row)
    : list match_pair * frame * frame :=
  let book := indexed book_df in
  let bank := indexed bank_df in
  let st := pass2 book bank (pass1 book bank) in
  (pairs st, unmatched book (book_matched st), unmatched bank (bank_matched st)).

Definition classify_book_only (book_only_df : frame) : frame * frame :=
  let deposits_in_transit := List.filter (fun e => fgtb (_amount e.2) zero) book_only_df in
  let outstanding_cheques := List.filter (fun e => fltb (_amount e.2) zero) book_only_df in
  (deposits_in_transit, outstanding_cheques).

Definition classify_bank_only (bank_only_df : frame) : frame * frame :=
  let bank_credits := List.filter (fun e => fgtb (_amount e.2) zero) bank_only_df in
  let bank_debits := List.filter (fun e => fltb (_amount e.2) zero) bank_only_df in
  (bank_credits, bank_debits).

(** ** 3. Adjusting entries *)

Local Open Scope string_scope.

Definition BANK_ACCOUNT_CODE := "1020".
Definition INTEREST_INCOME_CODE := "4110".
Definition AR_CODE := "1100".
Definition BANK_CHARGES_CODE := "5920".
Definition INSURANCE_CODE := "5700".
Definition COMMS_CODE := "5220".
Definition LOAN_CODE := "2100".
Definition MISC_EXPENSE_CODE := "5900".
Definition OTHER_INCOME_CODE := "4199".

(** The dict [categorize_bank_item] returns. *)
Record suggestion : Type := Suggestion {
  category : string;
  dr_account : string; dr_code : string;
  cr_account : string; cr_code : string;
  dr_amount : float; cr_amount : float
}.

Definition categorize_bank_item (description : cell) (amount : float) : suggestion :=
  let desc := lower (str description) in
  let abs_amt := fabs amount in
  if fgtb amount zero then
    if str_in "interest" desc then
      Suggestion "Bank Interest Earned"
        "Cash at Bank" BANK_ACCOUNT_CODE "Interest Income" INTEREST_INCOME_CODE
        abs_amt abs_amt
    else if str_in "payment" desc || str_in "collection" desc || str_in "transfer in" desc then
      Suggestion "Direct Credit — Accounts Receivable"
        "Cash at Bank" BANK_ACCOUNT_CODE "Accounts Receivable" AR_CODE
        abs_amt abs_amt
    else
      Suggestion "Bank Credit — Investigate"
        "Cash at Bank" BANK_ACCOUNT_CODE "Other Income" OTHER_INCOME_CODE
        abs_amt abs_amt
  else
    if str_in "charge" desc || str_in "fee" desc || str_in "service" desc then
      Suggestion "Bank Charges & Fees"
        "Bank Charges & Fees" BANK_CHARGES_CODE "Cash at Bank" BANK_ACCOUNT_CODE
        abs_amt abs_amt
    else if str_in "insurance" desc then
      Suggestion "Insurance — Auto Debit"
        "Insurance Expense" INSURANCE_CODE "Cash at Bank" BANK_ACCOUNT_CODE
        abs_amt abs_amt
    else if str_in "subscription" desc || str_in "software" desc || str_in "saas" desc then
      Suggestion "Software / Subscription"
        "Telephone & Internet" COMMS_CODE "Cash at Bank" BANK_ACCOUNT_CODE
        abs_amt abs_amt
    else if str_in "loan" desc || str_in "repayment" desc || str_in "instalment" desc then
      Suggestion "Loan Repayment"
        "Long-term Loans" LOAN_CODE "Cash at Bank" BANK_ACCOUNT_CODE
        abs_amt abs_amt
    else if str_in "dishonour" desc || str_in "nsf" desc || str_in "returned" desc
            || str_in "bounce" desc then
      Suggestion "Dishonoured Cheque"
        "Accounts Receivable" AR_CODE "Cash at Bank" BANK_ACCOUNT_CODE
        abs_amt abs_amt
    else
      Suggestion "Direct Debit — Investigate"
        "Non-Operating Expense" MISC_EXPENSE_CODE "Cash at Bank" BANK_ACCOUNT_CODE
        abs_amt abs_amt.

Local Close Scope string_scope.
Local Open Scope Z_scope.

(** A suggestion with the three keys [build_adjusting_entries] adds. *)
Record adjusting_entry : Type := AdjustingEntry {
  entry :> suggestion;
  date : option Z;
  reference : string;
  description : cell
}.

Definition entry_of_row (r : row) : adjusting_entry :=
  let cat := categorize_bank_item (Description r) (_amount r) in
  AdjustingEntry cat (Date r) (Reference r) (Description r).

Definition build_adjusting_entries (bank_credits bank_debits : frame)
    : list adjusting_entry :=
  ((fun e => entry_of_row e.2) <$> bank_credits)
  ++ ((fun e => entry_of_row e.2) <$> bank_debits).

(** The totals [write_adjusting_entries] accumulates over the entries,
    [total_dr += e['dr_amount']] and [total_cr += e['cr_amount']] from 0.0,
    and its double-entry check; the cells it writes are not modelled. *)
Definition adjusting_totals (adjusting_entries : list adjusting_entry) : double * double :=
  foldl (fun t (e : adjusting_entry) =>
           (dadd t.1 (of_float (dr_amount e)), dadd t.2 (of_float (cr_amount e))))
        (dzero, dzero) adjusting_entries.

Definition balanced (adjusting_entries : list adjusting_entry) : bool :=
  let '(total_dr, total_cr) := adjusting_totals adjusting_entries in
  deqb (dround2 (dsub total_dr total_cr)) dzero.

(** ** 4. Reconciliation math *)

Record reconciliation : Type := Reconciliation {
  book_closing : float;
  bank_closing : float;
  total_deposits_in_transit : float;
  total_outstanding_cheques : float;
  adjusted_bank : float;
  total_bank_credits : float;
  total_bank_debits : float;
  adjusted_book : float;
  difference : float;
  reconciled : bool
}.

(** The [_amount] column of a frame. *)
Definition amounts (df : frame) : list float := (fun e => _amount e.2) <$> df.

(** [float(df['_amount'].sum()) if not df.empty else 0.0] *)
Definition total_amount (df : frame) : float :=
  match df with
  | [] => zero
  | _ => series_sum (amounts df)
  end.

Definition build_reconciliation (book_closing bank_closing : float)
    (deposits_in_transit outstanding_cheques bank_credits bank_debits : frame)
    : reconciliation :=
  let total_deposits_in_transit := total_amount deposits_in_transit in
  let total_outstanding_cheques := total_amount outstanding_cheques in
  let total_bank_credits := total_amount bank_credits in
  let total_bank_debits := total_amount bank_debits in
  let adjusted_bank :=
    fadd (fadd bank_closing total_deposits_in_transit) total_outstanding_cheques in
  let adjusted_book :=
    fadd (fadd book_closing total_bank_credits) total_bank_debits in
  let difference := round2 (fsub adjusted_bank adjusted_book) in
  let reconciled := feqb difference zero in
  {| book_closing := book_closing;
     bank_closing := bank_closing;
     total_deposits_in_transit := total_deposits_in_transit;
     total_outstanding_cheques := total_outstanding_cheques;
     adjusted_bank := adjusted_bank;
     total_bank_credits := total_bank_credits;
     total_bank_debits := total_bank_debits;
     adjusted_book := adjusted_book;
     difference := difference;
     reconciled := reconciled |}.

(** ** 5. Column mapping of [utils/excel_reader.py] *)

Local Open Scope string_scope.

(** Column name aliases for flexible matching. *)
Definition COLUMN_ALIASES : gmap string (list string) :=
  list_to_map
  [ ("account code", ["code"; "acct code"; "acct_code"; "account_code"; "no.";
                      "account no"; "account no."]);
    ("account name", ["name"; "description"; "account"; "account_name"; "acct name"]);
    ("date", ["date"; "trans date"; "transaction date"; "entry date"; "post date"]);
    ("reference", ["ref"; "ref no"; "ref."; "reference no"; "voucher no"; "jv no";
                   "invoice no"; "receipt no"; "payment no"]);
    ("description", ["desc"; "narration"; "narrative"; "memo"; "particulars"; "details"]);
    ("debit", ["debit"; "dr"; "debit amount"; "debit_amount"]);
    ("credit", ["credit"; "cr"; "credit amount"; "credit_amount"]);
    ("amount", ["amount"; "total"; "value"; "sum"]);
    ("balance", ["balance"; "running balance"; "bal"]);
    ("debit account", ["debit account"; "debit_account"; "dr account"; "dr_account";
                       "account debit"]);
    ("credit account", ["credit account"; "credit_account"; "cr account"; "cr_account";
                        "account credit"]);
    ("customer", ["customer"; "client"; "buyer"; "debtor"; "received from"; "from"]);
    ("supplier", ["supplier"; "vendor"; "seller"; "creditor"; "paid to"; "to"]);
    ("type", ["type"; "account type"; "category"; "classification"]);
    ("sub-type", ["sub-type"; "sub type"; "subtype"; "sub_type"; "subcategory"]);
    ("normal balance", ["normal balance"; "normal_balance"; "norm bal"; "normal"]);
    ("bank account", ["bank account"; "bank_account"; "bank"; "bank name"]);
    ("asset id", ["asset id"; "asset_id"; "asset no"; "asset code"; "id"]);
    ("cost", ["cost"; "original cost"; "purchase cost"; "acquisition cost"]);
    ("useful life (years)", ["useful life (years)"; "useful life"; "useful_life";
                             "life years"; "life"]);
    ("salvage value", ["salvage value"; "salvage_value"; "residual value"; "residual";
                       "scrap value"]);
    ("depreciation method", ["depreciation method"; "depreciation_method"; "method";
                             "depr method"]);
    ("accumulated depreciation", ["accumulated depreciation"; "accumulated_depreciation";
                                  "accum depr"; "accum depreciation";
                                  "total depreciation"]);
    ("net book value", ["net book value"; "net_book_value"; "nbv"; "book value";
                        "carrying value"]);
    ("date acquired", ["date acquired"; "date_acquired"; "acquisition date";
                       "purchase date"]);
    ("status", ["status"; "active"; "state"]);
    ("employee / department", ["employee / department"; "employee"; "department"; "dept";
                               "staff"]);
    ("location", ["location"; "site"; "branch"; "shop"]);
    ("category", ["category"; "asset category"; "class"; "group"]);
    ("annual depreciation", ["annual depreciation"; "annual_depreciation";
                             "yearly depreciation"]);
    ("monthly depreciation", ["monthly depreciation"; "monthly_depreciation"]) ].

Local Close Scope string_scope.
Local Open Scope Z_scope.

(** Normalize a column name for matching.  The labels of a sheet are taken
    to be strings, on which [str] is the identity. *)
Definition normalize_column (col_name : string) : string := lower (strip col_name).

(** A Python dict from strings to strings, in insertion order. *)
Definition dict : Type := list (string * string).

(** [d[k] = v]: a key already there keeps its place. *)
Fixpoint dict_set (k v : string) (d : dict) : dict :=
  match d with
  | [] => [(k, v)]
  | (k', v') :: d' =>
      if bool_decide (k = k') then (k, v) :: d' else (k', v') :: dict_set k v d'
  end.

(** [d.get(k)] *)
Fixpoint dict_get (k : string) (d : dict) : option string :=
  match d with
  | [] => None
  | (k', v') :: d' => if bool_decide (k = k') then Some v' else dict_get k d'
  end.

(** [{normalize_column(c): c for c in df.columns}]: of two labels with one
    normal form the later stays. *)
Definition normalized_headers (columns : list string) : gmap string string :=
  foldl (fun m c => <[normalize_column c := c]> m) ∅ columns.

(** The loop over the aliases: the header of the first alias that is a
    normalized header. *)
Fixpoint first_alias (nh : gmap string string) (aliases : list string) : option string :=
  match aliases with
  | [] => None
  | alias :: rest =>
      match nh !! alias with
      | Some h => Some h
      | None => first_alias nh rest
      end
  end.

(** The header the loop body finds for one canonical name: the direct match,
    else the alias match. *)
Definition find_header (nh : gmap string string) (canonical : string) : option string :=
  let canon_lower := lower canonical in
  match nh !! canon_lower with
  | Some h => Some h
  | None => first_alias nh (default [] (COLUMN_ALIASES !! canon_lower))
  end.

(** One iteration of the loop over [all_needed], on [mapping] and
    [missing_required]. *)
Definition map_step (nh : gmap string string) (required_columns : list string)
    (st : dict * list string) (canonical : string) : dict * list string :=
  match find_header nh canonical with
  | Some h => (dict_set canonical h st.1, st.2)
  | None =>
      if bool_decide (canonical ∈ required_columns)
      then (st.1, st.2 ++ [canonical])
      else st
  end.

(** [{v: k for k, v in mapping.items()}] *)
Definition reverse_map (mapping : dict) : gmap string string :=
  foldl (fun m kv => <[kv.2 := kv.1]> m) ∅ mapping.

(** [df.rename(columns=reverse_map)], on the labels. *)
Definition rename (columns : list string) (rm : gmap string string) : list string :=
  (fun c => default c (rm !! c)) <$> columns.

(** [map_columns]: a frame is here the list of its column labels, the only
    part of it the function reads or changes.  The result is
    [(mapped_df, missing_required, mapping)]. *)
Definition map_columns (columns required_columns optional_columns : list string)
    : option (list string) * list string * dict :=
  let nh := normalized_headers columns in
  let all_needed := required_columns ++ optional_columns in
  let '(mapping, missing_required) :=
    foldl (map_step nh required_columns) ([], []) all_needed in
  match missing_required with
  | _ :: _ => (None, missing_required, mapping)
  | [] => (Some (rename columns (reverse_map mapping)), [], mapping)
  end.

(** The columns [load_cash_ledger] and [load_bank_statement] ask for. *)
Local Open Scope string_scope.

Definition ledger_required : list string :=
  ["Date"; "Reference"; "Description"; "Debit"; "Credit"; "Balance"].

Definition ledger_optional : list string := ["Bank Account"].

Definition statement_required : list string :=
  ["Date"; "Reference"; "Description"; "Balance"].

Definition statement_optional : list string := ["Debit"; "Credit"].

Local Close Scope string_scope.
Local Open Scope Z_scope.

(** * Vocabulary of the statements *)

(** ** Classifier *)

(** The rows the classifier leaves out: zero and NaN amounts. *)
Definition neither_sign (e : nat * row) : bool :=
  negb (fgtb (_amount e.2) zero) && negb (fltb (_amount e.2) zero).

(** ** The keyword table of the adjustment proposer *)

Local Open Scope string_scope.

(** A rule of the keyword table of the specification: the keywords that
    select it and the proposal it makes. *)
Record rule : Type := Rule {
  keywords : list string;
  rule_category : string;
  rule_dr_account : string; rule_dr_code : string;
  rule_cr_account : string; rule_cr_code : string
}.

(** The inflow rules of the specification, in its order. *)
Definition spec_inflow_rules : list rule :=
  [ Rule ["interest"] "Bank Interest Earned"
      "Cash at Bank" BANK_ACCOUNT_CODE "Interest Income" INTEREST_INCOME_CODE;
    Rule ["payment"; "collection"; "transfer in"] "Direct Credit — Accounts Receivable"
      "Cash at Bank" BANK_ACCOUNT_CODE "Accounts Receivable" AR_CODE ].

Definition spec_inflow_default : rule :=
  Rule [] "Bank Credit — Investigate"
    "Cash at Bank" BANK_ACCOUNT_CODE "Other Income" OTHER_INCOME_CODE.

(** The outflow rules of the specification, in its order. *)
Definition spec_outflow_rules : list rule :=
  [ Rule ["charge"; "fee"; "service"] "Bank Charges & Fees"
      "Bank Charges & Fees" BANK_CHARGES_CODE "Cash at Bank" BANK_ACCOUNT_CODE;
    Rule ["insurance"] "Insurance — Auto Debit"
      "Insurance Expense" INSURANCE_CODE "Cash at Bank" BANK_ACCOUNT_CODE;
    Rule ["subscription"; "software"; "saas"] "Software / Subscription"
      "Telephone & Internet" COMMS_CODE "Cash at Bank" BANK_ACCOUNT_CODE;
    Rule ["loan"; "repayment"; "instalment"] "Loan Repayment"
      "Long-term Loans" LOAN_CODE "Cash at Bank" BANK_ACCOUNT_CODE;
    Rule ["dishonour"; "nsf"; "returned"; "bounce"] "Dishonoured Cheque"
      "Accounts Receivable" AR_CODE "Cash at Bank" BANK_ACCOUNT_CODE ].

Definition spec_outflow_default : rule :=
  Rule [] "Direct Debit — Investigate"
    "Non-Operating Expense" MISC_EXPENSE_CODE "Cash at Bank" BANK_ACCOUNT_CODE.

(** A rule matches when one of its keywords occurs in the description. *)
Definition rule_matches (desc : string) (r : rule) : bool :=
  existsb (fun k => str_in k desc) (keywords r).

(** Ordered search: the first matching rule wins. *)
Definition first_rule (rules : list rule) (default : rule) (desc : string) : rule :=
  match List.find (rule_matches desc) rules with
  | Some r => r
  | None => default
  end.

Definition propose (r : rule) (amount : float) : suggestion :=
  Suggestion (rule_category r)
    (rule_dr_account r) (rule_dr_code r) (rule_cr_account r) (rule_cr_code r)
    (fabs amount) (fabs amount).

(** The classifier as the specification words it: lower-case the
    description, pick the table by the sign of the amount, search it in
    order.  An amount that is neither an inflow nor an outflow has no
    rule. *)
Definition spec_categorize (description : cell) (amount : float) : option suggestion :=
  let desc := lower (str description) in
  if fgtb amount zero then
    Some (propose (first_rule spec_inflow_rules spec_inflow_default desc) amount)
  else if fltb amount zero then
    Some (propose (first_rule spec_outflow_rules spec_outflow_default desc) amount)
  else None.

Local Close Scope string_scope.
Local Open Scope Z_scope.

(** ** The contract of the period loader *)

(** [r] is the last row of [l] that passes [f]. *)
Definition last_where {A : Type} (f : A -> bool) (l : list A) (r : A) : Prop :=
  exists l1 l2, l = l1 ++ r :: l2 /\ f r = true /\ forall r', r' ∈ l2 -> f r' = false.

(** The mask of the period rows: in the period, and not the opening-balance
    marker. *)
Definition period_mask (period_start period_end : Z) (r : drow) : bool :=
  (date_geb (Date r) period_start && date_leb (Date r) period_end)
  && negb (str_eqb (Reference r) "OB").

(** What a loader owes for the coerced sheet [df]: it returns; the opening
    balance is the [Balance] of the last row dated before the period start,
    or zero when there is none; the closing balance is the [Balance] of the
    last row dated at or before the period end, or the opening balance when
    there is none; the period rows are the rows of the mask, in the order of
    the sheet, each with its signed amount. *)
Definition loader_contract (df : list drow) (amount_of : drow -> float)
    (period_start period_end : Z) (res : string + loaded) : Prop :=
  exists period_df opening_balance closing_balance,
    res = inr (period_df, opening_balance, closing_balance)
    /\ ((exists r, last_where (fun r => date_ltb (Date r) period_start) df r
                   /\ opening_balance = Balance r)
        \/ ((forall r, r ∈ df -> date_ltb (Date r) period_start = false)
            /\ opening_balance = zero))
    /\ ((exists r, last_where (fun r => date_leb (Date r) period_end) df r
                   /\ closing_balance = Balance r)
        \/ ((forall r, r ∈ df -> date_leb (Date r) period_end = false)
            /\ closing_balance = opening_balance))
    /\ base <$> period_df = List.filter (period_mask period_start period_end) df
    /\ (forall r : drow, r ∈ base <$> period_df <->
          r ∈ df
          /\ (exists t, Date r = Some t /\ period_start <= t <= period_end)
          /\ Reference r <> "OB"%string)
    /\ (forall r : row, r ∈ period_df -> _amount r = amount_of r).

(** ** Invariants of the matcher *)

(** The test a pair of a given kind has passed. *)
Definition kind_test (k : match_kind) : row -> row -> bool :=
  match k with
  | Exact => exact_test
  | Probable => probable_test
  end.

(** Every index is in at most one pair, and the two sets are the indices of
    the pairs. *)
Definition one_to_one (st : mstate) : Prop :=
  NoDup (book_idx <$> pairs st)
  /\ NoDup (bank_idx <$> pairs st)
  /\ (forall i, i ∈ book_matched st <-> i ∈ book_idx <$> pairs st)
  /\ (forall i, i ∈ bank_matched st <-> i ∈ bank_idx <$> pairs st).

(** Every pair joins a row of [book] and a row of [bank] that pass the test
    of its pass. *)
Definition sound (book bank : frame) (st : mstate) : Prop :=
  forall p, p ∈ pairs st ->
    exists b s, (book_idx p, b) ∈ book /\ (bank_idx p, s) ∈ bank
                /\ kind_test (match_type p) b s = true.

(** A later state keeps the pairs and the matched indices of an earlier
    one. *)
Definition extends (st st' : mstate) : Prop :=
  (forall p, p ∈ pairs st -> p ∈ pairs st')
  /\ (forall i, i ∈ book_matched st -> i ∈ book_matched st')
  /\ (forall i, i ∈ bank_matched st -> i ∈ bank_matched st').

(** The state [match_transactions] ends in. *)
Definition final_state (book_df bank_df : list row) : mstate :=
  pass2 (indexed book_df) (indexed bank_df) (pass1 (indexed book_df) (indexed bank_df)).

(** ** Sample sheets *)

(** Cells are given by their three readings.  A text cell is taken to hold
    neither a numeral nor a date; a date cell holds the text of a date. *)

Local Open Scope string_scope.

Definition day (n : Z) : Z := n * ns_per_day.

(** An empty cell: not a number, not a date, printed as ["nan"]. *)
Definition blank : cell := Cell NaN None "nan".

Definition text (s : string) : cell := Cell NaN None s.

(** A date cell for the day [n] days after the epoch. *)
Definition date_cell (n : Z) (shown : string) : cell := Cell NaN (Some (day n)) shown.

(** A numeric cell holding the integer [n]. *)
Definition number (n : Z) : cell := Cell (of_Z n) (Some n) (pretty n).

(** A [Debit] or [Credit] cell. *)
Definition amount_cell (v : option Z) : cell :=
  match v with
  | Some n => number n
  | None => blank
  end.

Definition ledger_line (d : Z) (shown ref desc : string)
    (debit credit : option Z) (balance : Z) : ledger_cells :=
  LedgerCells (date_cell d shown) (text ref) (text desc)
    (amount_cell debit) (amount_cell credit) (number balance).

Definition statement_line (d : Z) (shown ref desc : string)
    (debit credit : option Z) (balance : Z) : statement_cells :=
  StatementCells (date_cell d shown) (text ref) (text desc) (number balance)
    (Some (amount_cell debit)) (Some (amount_cell credit)).

(** A cash ledger whose opening-balance row, dated 2025-12-31, has an empty
    [Balance] cell. *)
Definition ledger_blank_balance : list ledger_cells :=
  [ LedgerCells (date_cell 20453 "2025-12-31") (text "OB") (text "Opening Balance")
      blank blank blank ].

(** A bank statement without a [Debit] column, with one deposit of 15,000 on
    2026-01-31. *)
Definition statement_no_debit : list statement_cells :=
  [ StatementCells (date_cell 20484 "2026-01-31") (text "INT-001")
      (text "Bank interest earned") (number 1495500)
      None (Some (number 15000)) ].

(** The cash ledger of [create_ledger_test_data.py] and the bank statement
    of [create_bank_statement.py], January 2026. *)
Definition cash_ledger_jan2026 : list ledger_cells :=
  [ ledger_line 20453 "2025-12-31" "OB" "Opening Balance" None None 1500000;
    ledger_line 20455 "2026-01-02" "CRJ-001" "Cash sales - Shop 1" (Some 380000) None 1880000;
    ledger_line 20456 "2026-01-03" "CRJ-002" "Cash sales - Shop 2" (Some 290000) None 2170000;
    ledger_line 20458 "2026-01-05" "CRJ-003" "AR receipt - Hla Min" (Some 250000) None 2420000;
    ledger_line 20458 "2026-01-05" "CPJ-001" "Payment - Golden Harvest" None (Some 320000) 2100000;
    ledger_line 20459 "2026-01-06" "CPJ-002" "Rent - Shop 1" None (Some 450000) 1650000;
    ledger_line 20460 "2026-01-07" "CRJ-004" "Cash sales - Shop 3" (Some 420000) None 2070000;
    ledger_line 20460 "2026-01-07" "CPJ-003" "Rent - Shop 2" None (Some 380000) 1690000;
    ledger_line 20461 "2026-01-08" "CPJ-004" "Rent - Shop 3" None (Some 350000) 1340000;
    ledger_line 20463 "2026-01-10" "CRJ-005" "AR receipt - Kyaw Zin" (Some 180000) None 1520000;
    ledger_line 20463 "2026-01-10" "CPJ-005" "Electricity bill" None (Some 125000) 1395000;
    ledger_line 20463 "2026-01-10" "CPJ-006" "Payment - Fresh Market" None (Some 185000) 1210000;
    ledger_line 20465 "2026-01-12" "CRJ-006" "Cash sales - all shops" (Some 550000) None 1760000;
    ledger_line 20465 "2026-01-12" "CPJ-007" "Internet & telephone" None (Some 55000) 1705000;
    ledger_line 20467 "2026-01-14" "CRJ-007" "AR receipt - Win Htut" (Some 450000) None 2155000;
    ledger_line 20468 "2026-01-15" "CPJ-008" "Payment - Pack & Go" None (Some 95000) 2060000;
    ledger_line 20468 "2026-01-15" "CPJ-009" "Transport costs" None (Some 85000) 1975000;
    ledger_line 20470 "2026-01-17" "CRJ-008" "Cash sales - Shop 1" (Some 315000) None 2290000;
    ledger_line 20471 "2026-01-18" "CPJ-010" "Petty cash top-up" None (Some 100000) 2190000;
    ledger_line 20473 "2026-01-20" "CRJ-009" "AR receipt - Thida Aye" (Some 320000) None 2510000;
    ledger_line 20473 "2026-01-20" "CPJ-011" "Payment - Supply Hub" None (Some 198000) 2312000;
    ledger_line 20475 "2026-01-22" "CRJ-010" "Cash sales - Shop 2" (Some 410000) None 2722000;
    ledger_line 20475 "2026-01-22" "CPJ-012" "Insurance premium" None (Some 65000) 2657000;
    ledger_line 20478 "2026-01-25" "CRJ-011" "AR receipt - Zaw Lin" (Some 750000) None 3407000;
    ledger_line 20478 "2026-01-25" "CPJ-013" "Equipment repair" None (Some 95000) 3312000;
    ledger_line 20481 "2026-01-28" "CRJ-012" "Cash sales - all shops" (Some 625000) None 3937000;
    ledger_line 20481 "2026-01-28" "CPJ-014" "Marketing agency" None (Some 120000) 3817000;
    ledger_line 20483 "2026-01-30" "CRJ-013" "Capital introduced" (Some 500000) None 4317000;
    ledger_line 20483 "2026-01-30" "CPJ-015" "Owner drawings" None (Some 200000) 4117000;
    ledger_line 20484 "2026-01-31" "PAY-001" "Salaries - kitchen" None (Some 750000) 3367000;
    ledger_line 20484 "2026-01-31" "PAY-002" "Salaries - service" None (Some 960000) 2407000;
    ledger_line 20484 "2026-01-31" "PAY-003" "Salaries - management" None (Some 600000) 1807000;
    ledger_line 20484 "2026-01-31" "PAY-004" "Salaries - delivery" None (Some 360000) 1447000;
    ledger_line 20484 "2026-01-31" "GJ-004" "Bank charges" None (Some 8500) 1438500 ].

Definition bank_statement_jan2026 : list statement_cells :=
  [ statement_line 20453 "2025-12-31" "OB" "Opening Balance" None None 1500000;
    statement_line 20455 "2026-01-02" "CRJ-001" "Cash sales — Shop 1" None (Some 380000) 1880000;
    statement_line 20456 "2026-01-03" "CRJ-002" "Cash sales — Shop 2" None (Some 290000) 2170000;
    statement_line 20458 "2026-01-05" "CRJ-003" "AR receipt — Hla Min" None (Some 250000) 2420000;
    statement_line 20458 "2026-01-05" "CPJ-001" "Payment — Golden Harvest" (Some 320000) None 2100000;
    statement_line 20459 "2026-01-06" "CPJ-002" "Rent — Shop 1" (Some 450000) None 1650000;
    statement_line 20460 "2026-01-07" "CRJ-004" "Cash sales — Shop 3" None (Some 420000) 2070000;
    statement_line 20460 "2026-01-07" "CPJ-003" "Rent — Shop 2" (Some 380000) None 1690000;
    statement_line 20461 "2026-01-08" "CPJ-004" "Rent — Shop 3" (Some 350000) None 1340000;
    statement_line 20463 "2026-01-10" "CRJ-005" "AR receipt — Kyaw Zin" None (Some 180000) 1520000;
    statement_line 20463 "2026-01-10" "CPJ-005" "Electricity bill" (Some 125000) None 1395000;
    statement_line 20463 "2026-01-10" "CPJ-006" "Payment — Fresh Market" (Some 185000) None 1210000;
    statement_line 20465 "2026-01-12" "CRJ-006" "Cash sales — all shops" None (Some 550000) 1760000;
    statement_line 20465 "2026-01-12" "CPJ-007" "Internet & telephone" (Some 55000) None 1705000;
    statement_line 20467 "2026-01-14" "CRJ-007" "AR receipt — Win Htut" None (Some 450000) 2155000;
    statement_line 20468 "2026-01-15" "CPJ-008" "Payment — Pack & Go" (Some 95000) None 2060000;
    statement_line 20468 "2026-01-15" "CPJ-009" "Transport costs" (Some 85000) None 1975000;
    statement_line 20470 "2026-01-17" "CRJ-008" "Cash sales — Shop 1" None (Some 315000) 2290000;
    statement_line 20471 "2026-01-18" "CPJ-010" "Petty cash top-up" (Some 100000) None 2190000;
    statement_line 20473 "2026-01-20" "CRJ-009" "AR receipt — Thida Aye" None (Some 320000) 2510000;
    statement_line 20473 "2026-01-20" "CPJ-011" "Payment — Supply Hub" (Some 198000) None 2312000;
    statement_line 20475 "2026-01-22" "CRJ-010" "Cash sales — Shop 2" None (Some 410000) 2722000;
    statement_line 20475 "2026-01-22" "CPJ-012" "Insurance premium" (Some 65000) None 2657000;
    statement_line 20478 "2026-01-25" "CRJ-011" "AR receipt — Zaw Lin" None (Some 750000) 3407000;
    statement_line 20478 "2026-01-25" "CPJ-013" "Equipment repair" (Some 95000) None 3312000;
    statement_line 20481 "2026-01-28" "CRJ-012" "Cash sales — all shops" None (Some 625000) 3937000;
    statement_line 20481 "2026-01-28" "CPJ-014" "Marketing agency" (Some 120000) None 3817000;
    statement_line 20481 "2026-01-28" "DIRECT-01" "Software subscription (auto-debit)" (Some 18000) None 3799000;
    statement_line 20484 "2026-01-31" "GJ-004" "Bank service charges" (Some 8500) None 3790500;
    statement_line 20484 "2026-01-31" "PAY-001" "Salaries — kitchen staff" (Some 750000) None 3040500;
    statement_line 20484 "2026-01-31" "PAY-002" "Salaries — service staff" (Some 960000) None 2080500;
    statement_line 20484 "2026-01-31" "PAY-003" "Salaries — management" (Some 600000) None 1480500;
    statement_line 20484 "2026-01-31" "INT-001" "Bank interest earned" None (Some 15000) 1495500 ].

Local Close Scope string_scope.
Local Open Scope Z_scope.

Definition jan_start : Z := day 20454.
Definition jan_end : Z := day 20484.

Definition period_rows (res : string + loaded) : list row :=
  match res with
  | inr (df, _, _) => df
  | inl _ => []
  end.

(** The loader returned, with these opening and closing balances. *)
Definition balances_are (res : string + loaded) (opening closing : Z) : bool :=
  match res with
  | inr (_, o, c) => feqb o (of_Z opening) && feqb c (of_Z closing)
  | inl _ => false
  end.

Definition jan_book : list row :=
  period_rows (load_cash_ledger (Data cash_ledger_jan2026) jan_start jan_end).

Definition jan_bank : list row :=
  period_rows (load_bank_statement (Data bank_statement_jan2026) jan_start jan_end).

Definition labels_refs (df : frame) : list (nat * string) :=
  (fun e : nat * row => (e.1, Reference e.2)) <$> df.

Definition jan_result : list match_pair * frame * frame :=
  match_transactions jan_book jan_bank.

Definition jan_deposits : frame := (classify_book_only jan_result.1.2).1.
Definition jan_cheques : frame := (classify_book_only jan_result.1.2).2.
Definition jan_credits : frame := (classify_bank_only jan_result.2).1.
Definition jan_debits : frame := (classify_bank_only jan_result.2).2.

(** The row the ledger loader makes of a sheet row of the period, and the
    row the statement loader makes. *)
Definition book_row_of (x : ledger_cells) : row :=
  let r := ledger_coerce x in Row r (fsub (Debit r) (Credit r)).

Definition bank_row_of (x : statement_cells) : row :=
  let r := statement_coerce x in Row r (fsub (Credit r) (Debit r)).

Local Open Scope string_scope.

(** Two cheques entered in the ledger under one reference, and the one
    cheque the bank has cleared. *)
Definition cheque_a : row :=
  book_row_of (ledger_line 20455 "2026-01-02" "CHQ-100" "Cheque to supplier A"
                 None (Some 50000) 1450000).

Definition cheque_b : row :=
  book_row_of (ledger_line 20462 "2026-01-09" "CHQ-100" "Cheque to supplier B"
                 None (Some 50000) 1400000).

Definition cheque_cleared : row :=
  bank_row_of (statement_line 20456 "2026-01-03" "chq-100" "Cheque 100"
                 (Some 50000) None 1450000).

(** A receipt of the ledger. *)
Definition deposit_30th : row :=
  book_row_of (ledger_line 20483 "2026-01-30" "CRJ-013" "Capital introduced"
                 (Some 500000) None 4317000).

(** A ledger payment and direct debits of the same amount three and four
    days later, under other references. *)
Definition payment_10th : row :=
  book_row_of (ledger_line 20463 "2026-01-10" "CPJ-900" "Standing order"
                 None (Some 1000) 0).

Definition debit_13th : row :=
  bank_row_of (statement_line 20466 "2026-01-13" "DD-17" "Direct debit"
                 (Some 1000) None 0).

Definition debit_14th : row :=
  bank_row_of (statement_line 20467 "2026-01-14" "DD-17" "Direct debit"
                 (Some 1000) None 0).

(** A ledger whose only row is dated after January 2026. *)
Definition ledger_february : list ledger_cells :=
  [ ledger_line 20490 "2026-02-06" "CRJ-050" "Cash sales" (Some 1000) None 1000 ].

Definition subscription : cell := text "Software subscription (auto-debit)".

Local Close Scope string_scope.
Local Open Scope Z_scope.

(** The descriptions of the two rows of each pair. *)
Definition matched_descriptions (book_df bank_df : list row)
    : list (option string * option string) :=
  (fun p : match_pair =>
     ((fun r : row => str (Description r)) <$> book_df !! book_idx p,
      (fun r : row => str (Description r)) <$> bank_df !! bank_idx p))
  <$> (match_transactions book_df bank_df).1.1.

(** ** The double-entry check *)

(** A total that is zero or more, or the infinity above. *)
Definition no_less_than_zero (d : double) : bool :=
  match d with
  | DFin q => Qle_bool 0 q
  | DInf negative => negb negative
  | DNaN => false
  end.

Local Open Scope string_scope.

(** A deposit of [2^1023] on the statement, a finite double. *)
Definition transfer_in : row :=
  bank_row_of (StatementCells (date_cell 20484 "2026-01-31") (text "TRF-900")
                 (text "Transfer in") blank
                 (Some blank)
                 (Some (Cell (Fin (Q2Qc (inject_Z (2 ^ 1023)))) None
                          "8.98846567431158e+307"))).

(** The interest the loader reads from a statement without a [Debit]
    column: its amount is NaN. *)
Definition interest_31st : row :=
  bank_row_of (StatementCells (date_cell 20484 "2026-01-31") (text "INT-001")
                 (text "Bank interest earned") (number 1495500)
                 None (Some (number 15000))).

Local Close Scope string_scope.
Local Open Scope Z_scope.

(** ** Vocabulary of the further properties *)

(** Every earlier statement row that passes the test of a pair against its
    ledger row is in a pair recorded before it. *)
Definition first_fit (book_df bank_df : list row) (ps : list match_pair) : Prop :=
  forall k p, ps !! k = Some p ->
  forall (b s : row) (j : nat),
    book_df !! book_idx p = Some b -> bank_df !! j = Some s ->
    (j < bank_idx p)%nat -> kind_test (match_type p) b s = true ->
    exists k' q, (k' < k)%nat /\ ps !! k' = Some q /\ bank_idx q = j.

(** The normal forms a header may have to stand for a canonical name. *)
Definition candidates (canonical : string) : list string :=
  lower canonical :: default [] (COLUMN_ALIASES !! lower canonical).

(** No normal form is a candidate of two different names of [l]. *)
Definition candidates_disjoint (l : list string) : bool :=
  forallb (fun c1 =>
    forallb (fun c2 =>
      bool_decide (c1 = c2)
      || forallb (fun a => negb (bool_decide (a ∈ candidates c2))) (candidates c1)) l) l.

Local Open Scope string_scope.

(** The headers of a ledger sheet written with aliases. *)
Definition ledger_headers : list string :=
  [" Date"; "Ref"; "Narration"; "DR"; "CR"; "Bal"; "Branch"].

Local Close Scope string_scope.
Local Open Scope Z_scope.

(** * Properties *)

(** ** Arithmetic of the float model *)

Lemma feqb_true (x y : float) :
  feqb x y = true <-> exists a, x = Fin a /\ y = Fin a.
Proof.
  destruct x as [a|], y as [b|]; simpl; split;
    try (intros [c [? ?]]; congruence); try discriminate.
  - intros H. exists a. split; [reflexivity|].
    f_equal. symmetry. apply Qc_is_canon, Qeq_bool_iff, H.
  - intros [c [Ha Hb]]. injection Ha as ->. injection Hb as ->.
    apply Qeq_bool_iff. reflexivity.
Qed.

Lemma feqb_zero (x : float) : feqb x zero = true <-> x = zero.
Proof.
  rewrite feqb_true. split.
  - intros [a [-> Ha]]. symmetry. exact Ha.
  - intros ->. exists (Q2Qc 0). auto.
Qed.

Lemma fadd_zero_r (x : float) : fadd x zero = x.
Proof. destruct x as [a|]; simpl; [|reflexivity]. f_equal. ring. Qed.

Lemma fsub_diag (a : Qc) : fsub (Fin a) (Fin a) = zero.
Proof. unfold zero. simpl. f_equal. ring. Qed.

Lemma round2_zero : round2 zero = zero.
Proof. unfold zero. simpl. f_equal. apply Qc_is_canon. reflexivity. Qed.

Lemma Qle_bool_false (x y : Q) : Qle_bool x y = false <-> (y < x)%Q.
Proof.
  rewrite <- not_true_iff_false, Qle_bool_iff.
  split; [apply Qnot_le_lt | apply Qlt_not_le].
Qed.

Lemma fltb_zero_neg (a : Qc) : fltb (Fin a) zero = true <-> (a < 0)%Qc.
Proof. unfold fltb, zero. rewrite negb_true_iff. apply Qle_bool_false. Qed.

Lemma fgtb_zero_pos (a : Qc) : fgtb (Fin a) zero = true <-> (0 < a)%Qc.
Proof. unfold fgtb, fltb, zero. rewrite negb_true_iff. apply Qle_bool_false. Qed.

(** No value is both above and below zero. *)
Lemma fgtb_fltb_zero (x : float) :
  fgtb x zero = true -> fltb x zero = true -> False.
Proof.
  destruct x as [a|]; [|discriminate].
  rewrite fgtb_zero_pos, fltb_zero_neg. intros H1 H2.
  exact (Qclt_not_le _ _ H1 (Qclt_le_weak _ _ H2)).
Qed.

(** Zero is neither above nor below zero. *)
Lemma feqb_zero_sign (x : float) :
  feqb x zero = true -> fgtb x zero = false /\ fltb x zero = false.
Proof. intros H. apply feqb_zero in H as ->. split; reflexivity. Qed.

(** ** Sums of a column *)

Lemma total_amount_sum (df : frame) : total_amount df = series_sum (amounts df).
Proof. destruct df; reflexivity. Qed.

(** Summing negative amounts and summing their absolute values move two
    accumulators in opposite directions. *)
Lemma sum_negative_abs (xs : list float) :
  (forall x, x ∈ xs -> fltb x zero = true) ->
  forall a b : Qc, exists s t : Qc,
    foldl sum_step (Fin a) xs = Fin s /\
    foldl sum_step (Fin b) (fabs <$> xs) = Fin t /\
    (s + t = a + b)%Qc.
Proof.
  induction xs as [|x xs IH]; intros Hneg a b.
  - exists a, b. auto.
  - assert (Hx : fltb x zero = true) by (apply Hneg; left).
    destruct x as [q|]; [|discriminate].
    apply fltb_zero_neg in Hx.
    destruct (IH (fun y Hy => Hneg y (list_elem_of_further _ _ _ Hy))
                 (a + q)%Qc (b + Qcabs q)%Qc) as (s & t & Hs & Ht & Hst).
    exists s, t. simpl. split; [exact Hs|]. split; [exact Ht|].
    rewrite Hst. rewrite (Qcabs_neg q (Qclt_le_weak _ _ Hx)). ring.
Qed.

(** Adding a total of negative amounts is subtracting the total of their
    absolute values. *)
Lemma fadd_negative_total (x : float) (df : frame) :
  (forall e, e ∈ df -> fltb (_amount e.2) zero = true) ->
  fadd x (total_amount df) = fsub x (series_sum (fabs <$> amounts df)).
Proof.
  intros Hneg. rewrite total_amount_sum. unfold series_sum.
  destruct (sum_negative_abs (amounts df)) with (a := Q2Qc 0) (b := Q2Qc 0)
    as (s & t & Hs & Ht & Hst).
  - intros y Hy. unfold amounts in Hy. apply list_elem_of_fmap in Hy as [e [-> He]].
    apply Hneg, He.
  - unfold zero. rewrite Hs, Ht. destruct x as [c|]; [|reflexivity].
    simpl. f_equal.
    assert (s = - t)%Qc as ->; [|ring].
    transitivity (s + t - t)%Qc; [ring|]. rewrite Hst. ring.
Qed.

(** ** C1: the reconciliation calculator *)

(** C1. [build_reconciliation] adds the totals of the deposits in transit
    and of the outstanding cheques to the bank closing balance, and the
    totals of the bank credits and bank debits to the book closing balance;
    the difference is the adjusted bank balance less the adjusted book
    balance rounded to two decimals, and [reconciled] holds exactly when the
    difference is zero.  Adding is right because the cheque and debit
    amounts are negative: for such buckets the addition is the subtraction
    of the absolute amounts.  With four empty buckets each adjusted balance
    is its closing balance. *)
Theorem build_reconciliation_formula
    (book_closing0 bank_closing0 : float)
    (deposits_in_transit outstanding_cheques bank_credits bank_debits : frame) :
  let r := build_reconciliation book_closing0 bank_closing0
             deposits_in_transit outstanding_cheques bank_credits bank_debits in
  adjusted_bank r =
    fadd (fadd bank_closing0 (series_sum (amounts deposits_in_transit)))
         (series_sum (amounts outstanding_cheques))
  /\ adjusted_book r =
    fadd (fadd book_closing0 (series_sum (amounts bank_credits)))
         (series_sum (amounts bank_debits))
  /\ difference r = round2 (fsub (adjusted_bank r) (adjusted_book r))
  /\ (reconciled r = true <-> difference r = zero)
  /\ ((forall e, e ∈ outstanding_cheques -> fltb (_amount e.2) zero = true) ->
      adjusted_bank r =
        fsub (fadd bank_closing0 (series_sum (amounts deposits_in_transit)))
             (series_sum (fabs <$> amounts outstanding_cheques)))
  /\ ((forall e, e ∈ bank_debits -> fltb (_amount e.2) zero = true) ->
      adjusted_book r =
        fsub (fadd book_closing0 (series_sum (amounts bank_credits)))
             (series_sum (fabs <$> amounts bank_debits)))
  /\ (deposits_in_transit = [] -> outstanding_cheques = [] ->
      bank_credits = [] -> bank_debits = [] ->
      adjusted_bank r = bank_closing0 /\ adjusted_book r = book_closing0).
Proof.
  intros r. subst r. unfold build_reconciliation. cbn [adjusted_bank adjusted_book difference reconciled].
  rewrite !total_amount_sum.
  repeat split.
  - apply feqb_zero.
  - apply feqb_zero.
  - intros Hneg. rewrite <- (total_amount_sum outstanding_cheques).
    rewrite fadd_negative_total by exact Hneg. reflexivity.
  - intros Hneg. rewrite <- (total_amount_sum bank_debits).
    rewrite fadd_negative_total by exact Hneg. reflexivity.
  - subst. cbn. rewrite !fadd_zero_r. reflexivity.
  - subst. cbn. rewrite !fadd_zero_r. reflexivity.
Qed.

(** ** C5: the item classifier *)

Section SignPartition.
Variables (A : Type) (p q : A -> bool).
Hypothesis disjoint : forall x, p x = true -> q x = true -> False.

(** Two disjoint masks and the complement of both cut a frame in three:
    every row, with its multiplicity, lands in exactly one part. *)
Lemma filter_three_way (l : list A) :
  l ≡ₚ (List.filter p l ++ List.filter q l
         ++ List.filter (fun x => negb (p x) && negb (q x)) l).
Proof.
  induction l as [|x l IH]; [reflexivity|].
  cbn [List.filter].
  destruct (p x) eqn:Hp, (q x) eqn:Hq; cbn [negb andb].
  - destruct (disjoint x Hp Hq).
  - cbn. constructor. exact IH.
  - rewrite <- app_comm_cons, <- Permutation_middle. constructor. exact IH.
  - rewrite app_assoc, <- Permutation_middle, <- app_assoc. constructor. exact IH.
Qed.
End SignPartition.

Lemma sign_masks_disjoint (e : nat * row) :
  fgtb (_amount e.2) zero = true -> fltb (_amount e.2) zero = true -> False.
Proof. apply fgtb_fltb_zero. Qed.

Lemma classify_by_sign (df : frame) :
  let pos := List.filter (fun e => fgtb (_amount e.2) zero) df in
  let neg := List.filter (fun e => fltb (_amount e.2) zero) df in
  (forall e, e ∈ pos <-> e ∈ df /\ fgtb (_amount e.2) zero = true)
  /\ (forall e, e ∈ neg <-> e ∈ df /\ fltb (_amount e.2) zero = true)
  /\ (forall e, e ∈ pos -> e ∈ neg -> False)
  /\ (forall e, feqb (_amount e.2) zero = true -> (e ∉ pos) /\ (e ∉ neg))
  /\ df ≡ₚ (pos ++ neg ++ List.filter neither_sign df).
Proof.
  intros pos neg. subst pos neg.
  assert (Hin : forall (f : nat * row -> bool) e,
             e ∈ List.filter f df <-> e ∈ df /\ f e = true).
  { intros f e. rewrite !list_elem_of_In. apply filter_In. }
  split; [intros e; apply Hin|].
  split; [intros e; apply Hin|].
  split.
  { intros e H1 H2. apply Hin in H1 as [_ H1]. apply Hin in H2 as [_ H2].
    exact (sign_masks_disjoint e H1 H2). }
  split.
  { intros e Hz. apply feqb_zero_sign in Hz as [Hp Hn].
    split; intros H; apply Hin in H as [_ H]; congruence. }
  apply filter_three_way. exact sign_masks_disjoint.
Qed.

Lemma cheques_negative (book_only : frame) (e : nat * row) :
  e ∈ (classify_book_only book_only).2 -> fltb (_amount e.2) zero = true.
Proof.
  intros He. apply (proj1 (proj2 (classify_by_sign book_only))) in He. exact (proj2 He).
Qed.

(** C5. Both classifiers cut their frame by the sign of [_amount]: the rows
    above zero go to the first bucket (deposits in transit, bank credits),
    the rows below zero to the second (outstanding cheques, bank debits), no
    row is in both buckets, a row whose amount equals zero is in neither,
    and the two buckets with the rows of neither sign are a rearrangement of
    the whole frame. *)
Theorem classify_partition (book_only bank_only : frame) :
  let deposits_in_transit := (classify_book_only book_only).1 in
  let outstanding_cheques := (classify_book_only book_only).2 in
  let bank_credits := (classify_bank_only bank_only).1 in
  let bank_debits := (classify_bank_only bank_only).2 in
  ((forall e, e ∈ deposits_in_transit <->
              e ∈ book_only /\ fgtb (_amount e.2) zero = true)
   /\ (forall e, e ∈ outstanding_cheques <->
                 e ∈ book_only /\ fltb (_amount e.2) zero = true)
   /\ (forall e, e ∈ deposits_in_transit -> e ∈ outstanding_cheques -> False)
   /\ (forall e, feqb (_amount e.2) zero = true ->
                 (e ∉ deposits_in_transit) /\ (e ∉ outstanding_cheques))
   /\ book_only ≡ₚ (deposits_in_transit ++ outstanding_cheques
                     ++ List.filter neither_sign book_only))
  /\
  ((forall e, e ∈ bank_credits <->
              e ∈ bank_only /\ fgtb (_amount e.2) zero = true)
   /\ (forall e, e ∈ bank_debits <->
                 e ∈ bank_only /\ fltb (_amount e.2) zero = true)
   /\ (forall e, e ∈ bank_credits -> e ∈ bank_debits -> False)
   /\ (forall e, feqb (_amount e.2) zero = true ->
                 (e ∉ bank_credits) /\ (e ∉ bank_debits))
   /\ bank_only ≡ₚ (bank_credits ++ bank_debits
                     ++ List.filter neither_sign bank_only)).
Proof.
  cbn zeta. unfold classify_book_only, classify_bank_only. cbn [fst snd].
  split; apply classify_by_sign.
Qed.

(** ** C7: the adjustment proposer *)

Lemma lower_upper_char (c : ascii) : lower_char (upper_char c) = lower_char c.
Proof. destruct c as [[] [] [] [] [] [] [] []]; reflexivity. Qed.

Lemma lower_upper (s : string) : lower (upper s) = lower s.
Proof.
  unfold lower, upper. induction s as [|c s IH]; [reflexivity|].
  cbn [map_string]. rewrite lower_upper_char, IH. reflexivity.
Qed.

Lemma fltb_not_fgtb (x : float) : fltb x zero = true -> fgtb x zero = false.
Proof.
  intros H. destruct (fgtb x zero) eqn:E; [|reflexivity].
  destruct (fgtb_fltb_zero x E H).
Qed.

Ltac split_tests :=
  repeat match goal with
         | |- context [str_in ?k ?d] => destruct (str_in k d); cbn
         end.

Lemma categorize_refines (description : cell) (amount : float) :
  fgtb amount zero = true \/ fltb amount zero = true ->
  spec_categorize description amount = Some (categorize_bank_item description amount).
Proof.
  intros Hsign. unfold spec_categorize, categorize_bank_item.
  generalize (lower (str description)) as desc. intros desc.
  destruct (fgtb amount zero) eqn:Hpos.
  - f_equal. unfold first_rule, spec_inflow_rules, rule_matches. cbn.
    split_tests; reflexivity.
  - destruct Hsign as [|Hneg]; [discriminate|]. rewrite Hneg.
    f_equal. unfold first_rule, spec_outflow_rules, rule_matches. cbn.
    split_tests; reflexivity.
Qed.

Lemma categorize_subscription (description : cell) (amount : float) :
  str description = "Software subscription (auto-debit)"%string ->
  fltb amount zero = true ->
  categorize_bank_item description amount =
    Suggestion "Software / Subscription" "Telephone & Internet" "5220"
               "Cash at Bank" "1020" (fabs amount) (fabs amount).
Proof.
  intros Hd Hneg.
  assert (Hs : spec_categorize description amount =
               Some (categorize_bank_item description amount))
    by (apply categorize_refines; right; exact Hneg).
  unfold spec_categorize in Hs.
  rewrite (fltb_not_fgtb _ Hneg), Hneg, Hd in Hs.
  injection Hs as <-. reflexivity.
Qed.

(** C7. On an inflow or an outflow item [categorize_bank_item] returns what
    the ordered, first-match keyword search over the rule table of the
    specification returns; the search sees the description only through its
    lower-case form, so an upper-cased description gets the same proposal;
    and an outflow described as "Software subscription (auto-debit)" is
    proposed as "Software / Subscription", debit Telephone & Internet
    (5220), credit Cash at Bank (1020). *)
Theorem categorize_bank_item_rules (description : cell) (amount : float) :
  (fgtb amount zero = true \/ fltb amount zero = true ->
   spec_categorize description amount = Some (categorize_bank_item description amount))
  /\ categorize_bank_item
       (Cell (to_numeric description) (to_datetime description) (upper (str description)))
       amount
     = categorize_bank_item description amount
  /\ (str description = "Software subscription (auto-debit)"%string ->
      fltb amount zero = true ->
      categorize_bank_item description amount =
        Suggestion "Software / Subscription" "Telephone & Internet" "5220"
                   "Cash at Bank" "1020" (fabs amount) (fabs amount)).
Proof.
  split; [apply categorize_refines|].
  split; [|apply categorize_subscription].
  unfold categorize_bank_item. cbn [str]. rewrite lower_upper. reflexivity.
Qed.

(** ** C8: the double-entry check of the adjusting entries *)

Lemma categorize_amounts (description : cell) (amount : float) :
  dr_amount (categorize_bank_item description amount) = fabs amount
  /\ cr_amount (categorize_bank_item description amount) = fabs amount.
Proof.
  unfold categorize_bank_item.
  repeat match goal with
         | |- context [if ?b then _ else _] => destruct b
         end; split; reflexivity.
Qed.

Lemma entry_of_row_amounts (r : row) :
  dr_amount (entry_of_row r) = fabs (_amount r)
  /\ cr_amount (entry_of_row r) = fabs (_amount r).
Proof. unfold entry_of_row. cbn [entry]. apply categorize_amounts. Qed.

Lemma build_adjusting_entries_elem (bank_credits bank_debits : frame) (e : adjusting_entry) :
  e ∈ build_adjusting_entries bank_credits bank_debits <->
  exists r, r ∈ bank_credits ++ bank_debits /\ e = entry_of_row r.2.
Proof.
  unfold build_adjusting_entries. rewrite <- fmap_app, list_elem_of_fmap.
  split; intros [r [H1 H2]]; exists r; auto.
Qed.

(** The two running totals stay equal while each entry adds the same
    amount to both. *)
Lemma totals_step_equal (es : list adjusting_entry) (t : double * double) :
  (forall e : adjusting_entry, e ∈ es -> dr_amount e = cr_amount e) ->
  t.1 = t.2 ->
  (foldl (fun t (e : adjusting_entry) =>
            (dadd t.1 (of_float (dr_amount e)), dadd t.2 (of_float (cr_amount e)))) t es).1
  = (foldl (fun t (e : adjusting_entry) =>
              (dadd t.1 (of_float (dr_amount e)), dadd t.2 (of_float (cr_amount e)))) t es).2.
Proof.
  revert t. induction es as [|e es IH]; intros t Hes Ht; [exact Ht|].
  cbn [foldl]. apply IH.
  - intros e' He'. apply Hes. right. exact He'.
  - cbn [fst snd]. rewrite Ht, (Hes e) by left. reflexivity.
Qed.

Lemma dsub_diag (a : Qc) : dsub (DFin a) (DFin a) = dzero.
Proof. unfold dsub, dneg, dadd. rewrite Qcplus_opp_r. reflexivity. Qed.

(** What the check makes of two equal totals: a finite total less itself is
    zero and passes, an infinity less itself is NaN and fails, as NaN
    does. *)
Lemma check_of_equal_totals (t : double) :
  (dsub t t = dzero \/ dsub t t = DNaN)
  /\ (deqb (dround2 (dsub t t)) dzero = true <-> exists q, t = DFin q).
Proof.
  destruct t as [a|s|].
  - rewrite dsub_diag. split; [left; reflexivity|].
    split; [intros _; exists a; reflexivity|intros _; vm_compute; reflexivity].
  - assert (E : dsub (DInf s) (DInf s) = DNaN) by (destruct s; reflexivity).
    rewrite E. split; [right; reflexivity|].
    split; [discriminate|intros [q Hq]; discriminate].
  - split; [right; reflexivity|]. split; [discriminate|intros [q Hq]; discriminate].
Qed.

(** Once a total is NaN it stays NaN. *)
Lemma totals_nan_stays (es : list adjusting_entry) (t : double * double) :
  t.1 = DNaN ->
  (foldl (fun t (e : adjusting_entry) =>
            (dadd t.1 (of_float (dr_amount e)), dadd t.2 (of_float (cr_amount e)))) t es).1
  = DNaN.
Proof.
  revert t. induction es as [|e es IH]; intros t Ht; [exact Ht|].
  cbn [foldl]. apply IH. cbn [fst]. rewrite Ht. reflexivity.
Qed.

Lemma dadd_nan_r (x : double) : dadd x DNaN = DNaN.
Proof. destruct x; reflexivity. Qed.

(** An entry without an amount makes the total NaN. *)
Lemma totals_nan (es : list adjusting_entry) (t : double * double) :
  (exists e : adjusting_entry, e ∈ es /\ dr_amount e = NaN) ->
  (foldl (fun t (e : adjusting_entry) =>
            (dadd t.1 (of_float (dr_amount e)), dadd t.2 (of_float (cr_amount e)))) t es).1
  = DNaN.
Proof.
  revert t. induction es as [|e es IH]; intros t [x [Hx Hnan]]; [inversion Hx|].
  cbn [foldl]. apply elem_of_cons in Hx as [->|Hx].
  - apply totals_nan_stays. cbn [fst]. rewrite Hnan. apply dadd_nan_r.
  - apply IH. exists x. auto.
Qed.

Lemma round_half_even_nonneg (x : Q) : (0 <= x)%Q -> 0 <= round_half_even x.
Proof.
  intros Hx. unfold round_half_even.
  assert (Hf : 0 <= Qfloor x).
  { change 0 with (Qfloor 0). apply Qfloor_resp_le, Hx. }
  destruct (Qcompare _ _); [destruct (Z.even _)| |]; lia.
Qed.

Lemma pow2_pos (k : Z) : (0 < pow2 k)%Q.
Proof. unfold pow2. apply Qpower_0_lt. reflexivity. Qed.

(** Rounding keeps what is zero or more zero or more. *)
Lemma rnd64_nonneg (q : Qc) : (0 <= q)%Q -> no_less_than_zero (rnd64 q) = true.
Proof.
  intros Hq. unfold rnd64. destruct (Qeq_bool q 0); [reflexivity|]. cbv zeta.
  rewrite (proj2 (Qle_bool_iff 0 q) Hq).
  destruct (Qle_bool (pow2 1024) _); [reflexivity|].
  cbn [no_less_than_zero]. apply Qle_bool_iff. cbn [this Q2Qc]. rewrite Qred_correct.
  apply Qmult_le_0_compat; [|apply Qlt_le_weak, pow2_pos].
  change 0%Q with (inject_Z 0). rewrite <- Zle_Qle. apply round_half_even_nonneg.
  apply Qle_shift_div_l; [apply pow2_pos|]. rewrite Qmult_0_l. apply Qabs_nonneg.
Qed.

Lemma dadd_nonneg (x y : double) :
  no_less_than_zero x = true -> no_less_than_zero y = true ->
  no_less_than_zero (dadd x y) = true.
Proof.
  destruct x as [a|[|]|], y as [b|[|]|]; cbn [no_less_than_zero negb]; try discriminate;
    try reflexivity.
  intros Ha Hb. cbn [dadd]. apply rnd64_nonneg.
  apply Qle_bool_iff in Ha, Hb. cbn [Qcplus this Q2Qc]. rewrite Qred_correct.
  replace 0%Q with (0 + 0)%Q by reflexivity. apply Qplus_le_compat; assumption.
Qed.

Lemma fabs_nonneg (x : float) : x <> NaN -> no_less_than_zero (of_float (fabs x)) = true.
Proof.
  destruct x as [a|]; [intros _|congruence]. cbn [fabs of_float].
  apply rnd64_nonneg. apply (Qcabs_nonneg a).
Qed.

(** A total of absolute values of numbers is zero or more, or the infinity
    above. *)
Lemma totals_nonneg (es : list adjusting_entry) (t : double * double) :
  (forall e : adjusting_entry, e ∈ es -> no_less_than_zero (of_float (dr_amount e)) = true) ->
  no_less_than_zero t.1 = true ->
  no_less_than_zero
    (foldl (fun t (e : adjusting_entry) =>
              (dadd t.1 (of_float (dr_amount e)), dadd t.2 (of_float (cr_amount e)))) t es).1
  = true.
Proof.
  revert t. induction es as [|e es IH]; intros t Hes Ht; [exact Ht|].
  cbn [foldl]. apply IH.
  - intros e' He'. apply Hes. right. exact He'.
  - cbn [fst]. apply dadd_nonneg; [exact Ht|apply Hes; left].
Qed.

Lemma classify_bank_only_finite (bank_only : frame) (r : nat * row) :
  r ∈ (classify_bank_only bank_only).1 ++ (classify_bank_only bank_only).2 ->
  _amount r.2 <> NaN.
Proof.
  unfold classify_bank_only. cbn [fst snd]. rewrite elem_of_app, !list_elem_of_In, !filter_In.
  intros [[_ H]|[_ H]] E; rewrite E in H; discriminate.
Qed.

(** C8, as amended.  Every suggestion [build_adjusting_entries] produces
    carries one value as its debit and its credit amount, the absolute value
    of the amount of the bank-only item it comes from, item by item in the
    order of the two buckets; so the debit total and the credit total of
    [write_adjusting_entries] are the same double, and what its double-entry
    check rounds is zero or NaN.  The check passes exactly when that total is
    a finite number.  It fails when an item has no amount, and, on the
    buckets of [classify_bank_only], whose amounts are always numbers, exactly
    when the total has overflowed to the infinity above. *)
Theorem adjusting_entries_check (bank_credits bank_debits : frame) :
  let adjusting_entries := build_adjusting_entries bank_credits bank_debits in
  let total_dr := (adjusting_totals adjusting_entries).1 in
  let total_cr := (adjusting_totals adjusting_entries).2 in
  (forall e : adjusting_entry, e ∈ adjusting_entries ->
     dr_amount e = cr_amount e
     /\ exists r, r ∈ bank_credits ++ bank_debits /\ dr_amount e = fabs (_amount r.2))
  /\ (fun e : adjusting_entry => (dr_amount e, cr_amount e)) <$> adjusting_entries
     = (fun r : nat * row => (fabs (_amount r.2), fabs (_amount r.2)))
         <$> (bank_credits ++ bank_debits)
  /\ total_dr = total_cr
  /\ (dsub total_dr total_cr = dzero \/ dsub total_dr total_cr = DNaN)
  /\ (balanced adjusting_entries = true <-> exists q, total_dr = DFin q)
  /\ ((exists r, r ∈ bank_credits ++ bank_debits /\ _amount r.2 = NaN) ->
      balanced adjusting_entries = false)
  /\ (forall bank_only : frame,
        bank_credits = (classify_bank_only bank_only).1 ->
        bank_debits = (classify_bank_only bank_only).2 ->
        (balanced adjusting_entries = false <-> total_dr = DInf false)).
Proof.
  cbn zeta.
  assert (Hpair : forall e : adjusting_entry,
             e ∈ build_adjusting_entries bank_credits bank_debits ->
             dr_amount e = cr_amount e
             /\ exists r, r ∈ bank_credits ++ bank_debits /\ dr_amount e = fabs (_amount r.2)).
  { intros e He. apply build_adjusting_entries_elem in He as [r [Hr ->]].
    destruct (entry_of_row_amounts r.2) as [Hd Hc]. split; [congruence|].
    exists r. auto. }
  split; [exact Hpair|].
  split.
  { unfold build_adjusting_entries. rewrite <- fmap_app, <- list_fmap_compose.
    apply list_fmap_ext. intros i r _. unfold compose.
    destruct (entry_of_row_amounts r.2) as [Hd Hc]. rewrite Hd, Hc. reflexivity. }
  set (es := build_adjusting_entries bank_credits bank_debits) in *.
  assert (Heq : (adjusting_totals es).1 = (adjusting_totals es).2).
  { apply totals_step_equal; [|reflexivity]. intros e He. apply (Hpair e He). }
  assert (Hcheck : balanced es = true <-> exists q, (adjusting_totals es).1 = DFin q).
  { unfold balanced. destruct (adjusting_totals es) as [total_dr total_cr].
    cbn [fst snd] in *. subst total_cr. apply check_of_equal_totals. }
  split; [exact Heq|].
  split; [rewrite <- Heq; apply check_of_equal_totals|].
  split; [exact Hcheck|].
  split.
  { intros [r [Hr Hnan]]. apply not_true_is_false. intros Hb.
    apply Hcheck in Hb as [q Hq].
    assert (Hn : (adjusting_totals es).1 = DNaN).
    { apply totals_nan. exists (entry_of_row r.2). split.
      - apply build_adjusting_entries_elem. exists r. auto.
      - destruct (entry_of_row_amounts r.2) as [-> _]. rewrite Hnan. reflexivity. }
    congruence. }
  intros bank_only Hc Hd.
  assert (Hsign : no_less_than_zero (adjusting_totals es).1 = true).
  { apply totals_nonneg; [|reflexivity].
    intros e He. apply build_adjusting_entries_elem in He as [r [Hr ->]].
    destruct (entry_of_row_amounts r.2) as [-> _]. apply fabs_nonneg.
    apply (classify_bank_only_finite bank_only). rewrite <- Hc, <- Hd. exact Hr. }
  split.
  - intros Hb. destruct (adjusting_totals es).1 as [q|[|]|] eqn:Ht;
      try discriminate Hsign; [|reflexivity].
    rewrite (proj2 Hcheck) in Hb by (exists q; reflexivity). discriminate.
  - intros Ht. apply not_true_is_false. intros Hb.
    apply Hcheck in Hb as [q Hq]. congruence.
Qed.

(** ** C6, C10: the period loader *)

Lemma last_filter_spec {A : Type} (f : A -> bool) (l : list A) :
  match last (List.filter f l) with
  | Some r => last_where f l r
  | None => forall r, r ∈ l -> f r = false
  end.
Proof.
  induction l as [|x l IH] using rev_ind.
  - cbn. intros r Hr. inversion Hr.
  - rewrite List.filter_app. cbn [List.filter]. destruct (f x) eqn:Hx.
    + rewrite last_snoc. exists l, []. repeat split; [exact Hx|].
      intros r' Hr'. inversion Hr'.
    + rewrite app_nil_r. destruct (last (List.filter f l)) as [r|].
      * destruct IH as (l1 & l2 & -> & Hr & Hl2).
        exists l1, (l2 ++ [x]). split; [now rewrite <- app_assoc|].
        split; [exact Hr|]. intros r' Hr'.
        apply elem_of_app in Hr' as [Hr'|Hr']; [apply Hl2, Hr'|].
        apply list_elem_of_singleton in Hr' as ->. exact Hx.
      * intros r Hr. apply elem_of_app in Hr as [Hr|Hr]; [apply IH, Hr|].
        apply list_elem_of_singleton in Hr as ->. exact Hx.
Qed.

Lemma period_mask_spec (period_start period_end : Z) (r : drow) :
  period_mask period_start period_end r = true <->
  (exists t, Date r = Some t /\ period_start <= t <= period_end)
  /\ Reference r <> "OB"%string.
Proof.
  unfold period_mask, date_geb, date_leb, str_eqb.
  rewrite !andb_true_iff, negb_true_iff, bool_decide_eq_false.
  destruct (Date r) as [t|].
  - rewrite !Z.leb_le. split.
    + intros [[H1 H2] H3]. split; [exists t; auto|exact H3].
    + intros [[t' [Ht' [H1 H2]]] H3]. injection Ht' as <-. auto.
  - split; [intros [[H _] _]; discriminate|].
    intros [[t [Ht _]] _]. discriminate.
Qed.

Lemma filter_filter_and {A : Type} (f g : A -> bool) (l : list A) :
  List.filter g (List.filter f l) = List.filter (fun x => f x && g x) l.
Proof.
  induction l as [|x l IH]; [reflexivity|].
  cbn [List.filter]. destruct (f x); cbn [List.filter andb]; rewrite IH; reflexivity.
Qed.

Lemma loader_contract_intro (df : list drow) (amount_of : drow -> float)
    (period_start period_end : Z) :
  let opening_balance :=
    match last (List.filter (fun r => date_ltb (Date r) period_start) df) with
    | None => zero
    | Some r => Balance r
    end in
  let closing_balance :=
    match last (List.filter (fun r => date_leb (Date r) period_end) df) with
    | Some r => Balance r
    | None => opening_balance
    end in
  loader_contract df amount_of period_start period_end
    (inr ((fun r => Row r (amount_of r))
            <$> List.filter (fun r => negb (str_eqb (Reference r) "OB"))
                  (filter_by_period df period_start period_end),
          opening_balance, closing_balance)).
Proof.
  intros opening_balance closing_balance.
  eexists _, _, _. split; [reflexivity|].
  assert (Hrows : base <$> ((fun r => Row r (amount_of r))
            <$> List.filter (fun r => negb (str_eqb (Reference r) "OB"))
                  (filter_by_period df period_start period_end))
          = List.filter (period_mask period_start period_end) df).
  { rewrite <- list_fmap_compose. unfold filter_by_period. rewrite filter_filter_and.
    unfold period_mask. apply list_fmap_id. }
  split.
  { subst opening_balance.
    pose proof (last_filter_spec (fun r => date_ltb (Date r) period_start) df) as H.
    destruct (last (List.filter (fun r => date_ltb (Date r) period_start) df)) as [r|].
    - left. exists r. split; [exact H|reflexivity].
    - right. split; [exact H|reflexivity]. }
  split.
  { subst closing_balance.
    pose proof (last_filter_spec (fun r => date_leb (Date r) period_end) df) as H.
    destruct (last (List.filter (fun r => date_leb (Date r) period_end) df)) as [r|].
    - left. exists r. split; [exact H|reflexivity].
    - right. split; [exact H|reflexivity]. }
  split; [exact Hrows|].
  split.
  { intros r. rewrite Hrows, list_elem_of_In, filter_In, <- list_elem_of_In.
    rewrite period_mask_spec. tauto. }
  intros r Hr. apply list_elem_of_fmap in Hr as [d [-> _]]. reflexivity.
Qed.

(** C6. For every sheet and period, each loader returns; its opening balance
    is the [Balance] of the last row dated strictly before the period start,
    or 0.0 when there is no such row; its closing balance is the [Balance]
    of the last row dated at or before the period end (the opening balance
    when there is none); and its period rows are exactly the rows dated
    from the start to the end of the period whose reference is not "OB",
    in sheet order, with debit less credit as the signed amount of a ledger
    row and credit less debit as that of a statement row. *)
Theorem period_loader_contract
    (ledger : list ledger_cells) (statement : list statement_cells)
    (period_start period_end : Z) :
  loader_contract (ledger_coerce <$> ledger)
    (fun r => fsub (Debit r) (Credit r)) period_start period_end
    (load_cash_ledger (Data ledger) period_start period_end)
  /\ loader_contract (statement_coerce <$> statement)
    (fun r => fsub (Credit r) (Debit r)) period_start period_end
    (load_bank_statement (Data statement) period_start period_end).
Proof.
  split.
  - apply (loader_contract_intro (ledger_coerce <$> ledger)
             (fun r => fsub (Debit r) (Credit r))).
  - apply (loader_contract_intro (statement_coerce <$> statement)
             (fun r => fsub (Credit r) (Debit r))).
Qed.

Lemma filter_none {A : Type} (f : A -> bool) (l : list A) :
  (forall x, x ∈ l -> f x = false) -> List.filter f l = [].
Proof.
  induction l as [|x l IH]; intros H; [reflexivity|].
  cbn [List.filter]. rewrite (H x) by left.
  apply IH. intros y Hy. apply H. right. exact Hy.
Qed.

Lemma date_ltb_leb (d : option Z) (period_start period_end : Z) :
  period_start <= period_end ->
  date_leb d period_end = false -> date_ltb d period_start = false.
Proof.
  destruct d as [t|]; [|reflexivity]. cbn.
  rewrite Z.leb_gt, Z.ltb_ge. lia.
Qed.

(** C10. When no row of a sheet is dated at or before the period end, the
    loader still returns, and the closing balance it returns is the opening
    balance it computed; that balance is 0.0 when no row is dated before the
    period start either, which is always so for a period that does not end
    before it starts. *)
Theorem closing_defaults_to_opening
    (ledger : list ledger_cells) (statement : list statement_cells)
    (period_start period_end : Z) :
  ((forall x, x ∈ ledger -> date_leb (to_datetime (lDate x)) period_end = false) ->
   exists period_df opening_balance,
     load_cash_ledger (Data ledger) period_start period_end
       = inr (period_df, opening_balance, opening_balance)
     /\ ((forall x, x ∈ ledger -> date_ltb (to_datetime (lDate x)) period_start = false) ->
         opening_balance = zero)
     /\ (period_start <= period_end -> opening_balance = zero))
  /\
  ((forall x, x ∈ statement -> date_leb (to_datetime (sDate x)) period_end = false) ->
   exists period_df opening_balance,
     load_bank_statement (Data statement) period_start period_end
       = inr (period_df, opening_balance, opening_balance)
     /\ ((forall x, x ∈ statement -> date_ltb (to_datetime (sDate x)) period_start = false) ->
         opening_balance = zero)
     /\ (period_start <= period_end -> opening_balance = zero)).
Proof.
  split; intros Hend.
  - assert (Hend' : forall r, r ∈ ledger_coerce <$> ledger ->
                      date_leb (Date r) period_end = false).
    { intros r Hr. apply list_elem_of_fmap in Hr as [x [-> Hx]]. apply Hend, Hx. }
    unfold load_cash_ledger. cbv zeta.
    rewrite (filter_none (fun r => date_leb (Date r) period_end) _ Hend'). cbn [last].
    eexists _, _. split; [reflexivity|]. split.
    + intros Hstart. rewrite filter_none; [reflexivity|].
      intros r Hr. apply list_elem_of_fmap in Hr as [x [-> Hx]]. apply Hstart, Hx.
    + intros Hle. rewrite filter_none; [reflexivity|].
      intros r Hr. apply (date_ltb_leb _ _ _ Hle), Hend', Hr.
  - assert (Hend' : forall r, r ∈ statement_coerce <$> statement ->
                      date_leb (Date r) period_end = false).
    { intros r Hr. apply list_elem_of_fmap in Hr as [x [-> Hx]]. apply Hend, Hx. }
    unfold load_bank_statement. cbv zeta.
    rewrite (filter_none (fun r => date_leb (Date r) period_end) _ Hend'). cbn [last].
    eexists _, _. split; [reflexivity|]. split.
    + intros Hstart. rewrite filter_none; [reflexivity|].
      intros r Hr. apply list_elem_of_fmap in Hr as [x [-> Hx]]. apply Hstart, Hx.
    + intros Hle. rewrite filter_none; [reflexivity|].
      intros r Hr. apply (date_ltb_leb _ _ _ Hle), Hend', Hr.
Qed.

(** ** C9: what the loaders do with blank numeric cells *)

(** In a ledger row, [Debit] and [Credit] are numbers, and so is the signed
    amount. *)
Lemma ledger_coerce_finite (x : ledger_cells) :
  Debit (ledger_coerce x) <> NaN /\ Credit (ledger_coerce x) <> NaN
  /\ fsub (Debit (ledger_coerce x)) (Credit (ledger_coerce x)) <> NaN.
Proof.
  cbn. destruct (to_numeric (lDebit x)), (to_numeric (lCredit x)); cbn;
    repeat split; discriminate.
Qed.

(** C9. The blank [Balance] of the opening row is not turned into 0: the
    January 2026 opening and closing balances of the ledger are NaN.  And on
    a statement without a [Debit] column the signed amount of the deposit is
    NaN as well. *)
Theorem blank_balance_stays_nan :
  load_cash_ledger (Data ledger_blank_balance) (day 20454) (day 20484)
    = inr ([], NaN, NaN)
  /\ (exists r, load_bank_statement (Data statement_no_debit) (day 20454) (day 20484)
                  = inr ([r], zero, of_Z 1495500)
                /\ Debit r = NaN /\ _amount r = NaN).
Proof.
  split; [reflexivity|].
  eexists. split; [reflexivity|]. split; reflexivity.
Qed.

(** ** The transaction matcher *)

(** *** Frames with a range index *)

Lemma indexed_elem (df : list row) (i : nat) (r : row) :
  (i, r) ∈ indexed df <-> df !! i = Some r.
Proof.
  unfold indexed. rewrite list_elem_of_lookup. split.
  - intros [j Hj]. apply lookup_zip_Some in Hj as [Hseq Hr].
    apply lookup_seq in Hseq as [-> _]. exact Hr.
  - intros Hr. exists i. apply lookup_zip_Some. split; [|exact Hr].
    apply lookup_seq. split; [reflexivity|]. eapply lookup_lt_Some, Hr.
Qed.

Lemma indexed_labels (df : list row) : (indexed df).*1 = seq 0 (length df).
Proof. unfold indexed. apply fst_zip. rewrite length_seq. reflexivity. Qed.

Lemma indexed_NoDup (df : list row) : NoDup (indexed df).*1.
Proof. rewrite indexed_labels. apply NoDup_seq. Qed.

(** In a frame with distinct labels a label names one row. *)
Lemma label_functional (df : frame) (i : nat) (r r' : row) :
  NoDup df.*1 -> (i, r) ∈ df -> (i, r') ∈ df -> r = r'.
Proof.
  induction df as [|[j x] df IH]; intros Hnd H1 H2; [inversion H1|].
  cbn in Hnd. apply NoDup_cons in Hnd as [Hj Hnd].
  apply elem_of_cons in H1 as [H1|H1], H2 as [H2|H2].
  - congruence.
  - injection H1 as -> ->. destruct Hj. apply list_elem_of_fmap. exists (j, r'). auto.
  - injection H2 as -> ->. destruct Hj. apply list_elem_of_fmap. exists (j, r). auto.
  - apply IH; assumption.
Qed.

(** *** The inner loop *)

Lemma scan_Some (test : row -> bool) (bm : gset nat) (bank : frame) (si : nat) :
  scan test bm bank = Some si ->
  (si ∉ bm) /\ exists s, (si, s) ∈ bank /\ test s = true.
Proof.
  induction bank as [|[sj s] bank IH]; [discriminate|].
  cbn [scan]. destruct (bool_decide (sj ∈ bm)) eqn:Hm.
  - intros H. destruct (IH H) as [H1 [s' [H2 H3]]].
    split; [exact H1|]. exists s'. split; [right; exact H2|exact H3].
  - apply bool_decide_eq_false in Hm. destruct (test s) eqn:Ht.
    + intros [= <-]. split; [exact Hm|]. exists s. split; [left|exact Ht].
    + intros H. destruct (IH H) as [H1 [s' [H2 H3]]].
      split; [exact H1|]. exists s'. split; [right; exact H2|exact H3].
Qed.

Lemma scan_None (test : row -> bool) (bm : gset nat) (bank : frame) :
  scan test bm bank = None ->
  forall si s, (si, s) ∈ bank -> si ∈ bm \/ test s = false.
Proof.
  induction bank as [|[sj s0] bank IH]; intros H si s Hin; [inversion Hin|].
  cbn [scan] in H. destruct (bool_decide (sj ∈ bm)) eqn:Hm.
  - apply bool_decide_eq_true in Hm.
    apply elem_of_cons in Hin as [[= -> ->]|Hin]; [left; exact Hm|].
    apply IH; assumption.
  - destruct (test s0) eqn:Ht; [discriminate|].
    apply elem_of_cons in Hin as [[= -> ->]|Hin]; [right; exact Ht|].
    apply IH; assumption.
Qed.

(** When one label only can pass, the scan returns it. *)
Lemma scan_unique (test : row -> bool) (bm : gset nat) (bank : frame) (si : nat) (s : row) :
  (si, s) ∈ bank -> si ∉ bm -> test s = true ->
  (forall si' s', (si', s') ∈ bank -> si' ∉ bm -> test s' = true -> si' = si) ->
  scan test bm bank = Some si.
Proof.
  intros Hin Hfree Ht Huniq. destruct (scan test bm bank) as [si'|] eqn:E.
  - apply scan_Some in E as [H1 [s' [H2 H3]]]. f_equal. eapply Huniq; eassumption.
  - destruct (scan_None _ _ _ E si s Hin) as [H|H]; [contradiction|congruence].
Qed.

(** *** The outer loops *)

Lemma one_to_one_init : one_to_one (MState [] ∅ ∅).
Proof.
  unfold one_to_one. cbn. repeat split; try constructor; try set_solver.
Qed.

Lemma one_to_one_record (st : mstate) (bi si : nat) (k : match_kind) :
  one_to_one st -> bi ∉ book_matched st -> si ∉ bank_matched st ->
  one_to_one (record_match st bi si k).
Proof.
  intros (Hb & Hs & Hbm & Hsm) Hbi Hsi. unfold one_to_one, record_match. cbn.
  rewrite !fmap_app. cbn.
  repeat split.
  - apply NoDup_app. split; [exact Hb|]. split; [|apply NoDup_singleton].
    intros i Hi Hi'. apply list_elem_of_singleton in Hi' as ->. apply Hbi, Hbm, Hi.
  - apply NoDup_app. split; [exact Hs|]. split; [|apply NoDup_singleton].
    intros i Hi Hi'. apply list_elem_of_singleton in Hi' as ->. apply Hsi, Hsm, Hi.
  - rewrite elem_of_union, elem_of_singleton, elem_of_app, list_elem_of_singleton, Hbm. tauto.
  - rewrite elem_of_union, elem_of_singleton, elem_of_app, list_elem_of_singleton, Hbm. tauto.
  - rewrite elem_of_union, elem_of_singleton, elem_of_app, list_elem_of_singleton, Hsm. tauto.
  - rewrite elem_of_union, elem_of_singleton, elem_of_app, list_elem_of_singleton, Hsm. tauto.
Qed.

Lemma sound_record (book bank : frame) (st : mstate) (bi si : nat) (k : match_kind)
    (b s : row) :
  sound book bank st -> (bi, b) ∈ book -> (si, s) ∈ bank -> kind_test k b s = true ->
  sound book bank (record_match st bi si k).
Proof.
  intros Hsound Hb Hs Ht p Hp. unfold record_match in Hp. cbn in Hp.
  apply elem_of_app in Hp as [Hp|Hp]; [apply Hsound, Hp|].
  apply list_elem_of_singleton in Hp as ->. exists b, s. auto.
Qed.

(** What one iteration of pass 1 does. *)
Lemma pass1_step_cases (bank : frame) (st : mstate) (e : nat * row) :
  (scan (exact_test e.2) (bank_matched st) bank = None /\ pass1_step bank st e = st)
  \/ (exists si, scan (exact_test e.2) (bank_matched st) bank = Some si
                 /\ pass1_step bank st e = record_match st e.1 si Exact).
Proof.
  unfold pass1_step. destruct (scan _ _ _) as [si|]; [right; exists si|left]; auto.
Qed.

(** What one iteration of pass 2 does. *)
Lemma pass2_step_cases (bank : frame) (st : mstate) (e : nat * row) :
  (e.1 ∈ book_matched st /\ pass2_step bank st e = st)
  \/ ((e.1 ∉ book_matched st)
      /\ scan (probable_test e.2) (bank_matched st) bank = None
      /\ pass2_step bank st e = st)
  \/ ((e.1 ∉ book_matched st)
      /\ exists si, scan (probable_test e.2) (bank_matched st) bank = Some si
                    /\ pass2_step bank st e = record_match st e.1 si Probable).
Proof.
  unfold pass2_step. destruct (bool_decide (e.1 ∈ book_matched st)) eqn:Hm.
  - left. apply bool_decide_eq_true in Hm. auto.
  - right. apply bool_decide_eq_false in Hm.
    destruct (scan _ _ _) as [si|]; [right|left]; eauto.
Qed.

Lemma extends_refl (st : mstate) : extends st st.
Proof. unfold extends. auto. Qed.

Lemma extends_trans (st1 st2 st3 : mstate) :
  extends st1 st2 -> extends st2 st3 -> extends st1 st3.
Proof. unfold extends. intros (?&?&?) (?&?&?). auto. Qed.

Lemma extends_record (st : mstate) (bi si : nat) (k : match_kind) :
  extends st (record_match st bi si k).
Proof.
  unfold extends, record_match. cbn. repeat split.
  - intros p Hp. apply elem_of_app. left. exact Hp.
  - intros i Hi. apply elem_of_union. right. exact Hi.
  - intros i Hi. apply elem_of_union. right. exact Hi.
Qed.

Lemma extends_pass1_step (bank : frame) (st : mstate) (e : nat * row) :
  extends st (pass1_step bank st e).
Proof.
  destruct (pass1_step_cases bank st e) as [[_ ->]|[si [_ ->]]];
    [apply extends_refl|apply extends_record].
Qed.

Lemma extends_pass2_step (bank : frame) (st : mstate) (e : nat * row) :
  extends st (pass2_step bank st e).
Proof.
  destruct (pass2_step_cases bank st e) as [[_ ->]|[(_ & _ & ->)|(_ & si & _ & ->)]];
    [apply extends_refl|apply extends_refl|apply extends_record].
Qed.

Lemma extends_foldl (step : mstate -> nat * row -> mstate) (l : frame) (st : mstate) :
  (forall st e, extends st (step st e)) -> extends st (foldl step st l).
Proof.
  intros Hstep. revert st. induction l as [|e l IH]; intros st; [apply extends_refl|].
  cbn [foldl]. eapply extends_trans; [apply Hstep|apply IH].
Qed.

Lemma sound_weaken (book book' bank : frame) (st : mstate) :
  (forall e, e ∈ book -> e ∈ book') -> sound book bank st -> sound book' bank st.
Proof.
  intros Hsub Hs p Hp. destruct (Hs p Hp) as (b & s & H1 & H2 & H3).
  exists b, s. auto.
Qed.

(** Pass 1 over the first rows [l] of the ledger: the pairs are one to one,
    all of kind Exact, join rows that pass the exact test, and only rows of
    [l] are matched. *)
Lemma pass1_run (bank l : frame) :
  NoDup l.*1 ->
  let st := foldl (pass1_step bank) (MState [] ∅ ∅) l in
  one_to_one st /\ sound l bank st
  /\ (forall i, i ∈ book_matched st -> i ∈ l.*1)
  /\ (forall p, p ∈ pairs st -> match_type p = Exact).
Proof.
  induction l as [|e l IH] using rev_ind; intros Hnd.
  - cbn. split; [apply one_to_one_init|].
    split; [intros p Hp; inversion Hp|].
    split; [intros i Hi; set_solver|intros p Hp; inversion Hp].
  - rewrite fmap_app in Hnd. apply NoDup_app in Hnd as (Hnd & Hfresh & _).
    specialize (IH Hnd). cbn zeta in IH |- *. rewrite foldl_snoc.
    set (st := foldl (pass1_step bank) (MState [] ∅ ∅) l) in *.
    destruct IH as (H11 & Hsound & Hsub & Hexact).
    assert (He : e.1 ∉ book_matched st).
    { intros Hin. apply (Hfresh e.1 (Hsub _ Hin)). cbn. left. }
    assert (Hsound' : sound (l ++ [e]) bank st).
    { eapply sound_weaken; [|exact Hsound]. intros x Hx. apply elem_of_app. auto. }
    assert (Hsub' : forall i, i ∈ book_matched st -> i ∈ (l ++ [e]).*1).
    { intros i Hi. rewrite fmap_app. apply elem_of_app. left. apply Hsub, Hi. }
    destruct (pass1_step_cases bank st e) as [[_ ->]|[si [Hscan ->]]]; [auto|].
    apply scan_Some in Hscan as [Hsi [s [Hs Ht]]].
    split; [apply one_to_one_record; assumption|].
    split.
    { apply (sound_record _ _ _ _ _ _ e.2 s); try assumption.
      apply elem_of_app. right. destruct e. left. }
    split.
    { intros i Hi. unfold record_match in Hi. cbn in Hi.
      apply elem_of_union in Hi as [Hi|Hi]; [|apply Hsub', Hi].
      apply elem_of_singleton in Hi as ->. rewrite fmap_app. apply elem_of_app.
      right. cbn. left. }
    intros p Hp. unfold record_match in Hp. cbn in Hp.
    apply elem_of_app in Hp as [Hp|Hp]; [apply Hexact, Hp|].
    apply list_elem_of_singleton in Hp as ->. reflexivity.
Qed.

(** Pass 2 keeps the pairs one to one and sound. *)
Lemma pass2_run (book bank l : frame) (st0 : mstate) :
  (forall e, e ∈ l -> e ∈ book) ->
  one_to_one st0 -> sound book bank st0 ->
  one_to_one (foldl (pass2_step bank) st0 l)
  /\ sound book bank (foldl (pass2_step bank) st0 l).
Proof.
  revert st0. induction l as [|e l IH]; intros st0 Hsub H11 Hsound; [auto|].
  cbn [foldl]. apply IH.
  - intros x Hx. apply Hsub. right. exact Hx.
  - destruct (pass2_step_cases bank st0 e) as [[_ ->]|[(_ & _ & ->)|(He & si & Hscan & ->)]];
      try assumption.
    apply scan_Some in Hscan as [Hsi _]. apply one_to_one_record; assumption.
  - destruct (pass2_step_cases bank st0 e) as [[_ ->]|[(_ & _ & ->)|(He & si & Hscan & ->)]];
      try assumption.
    apply scan_Some in Hscan as [Hsi [s [Hs Ht]]].
    apply (sound_record _ _ _ _ _ _ e.2 s); try assumption.
    apply Hsub. destruct e. left.
Qed.

(** After pass 2 over the rows [l], an unmatched row of [l] and an unmatched
    statement row do not pass the probable test. *)
Lemma pass2_complete (bank l : frame) (st0 : mstate) :
  let st := foldl (pass2_step bank) st0 l in
  forall bi b si s,
    (bi, b) ∈ l -> bi ∉ book_matched st ->
    (si, s) ∈ bank -> si ∉ bank_matched st ->
    probable_test b s = false.
Proof.
  induction l as [|e l IH] using rev_ind; cbn zeta.
  - intros bi b si s Hin. inversion Hin.
  - rewrite foldl_snoc. set (st := foldl (pass2_step bank) st0 l) in *.
    intros bi b si s Hin Hbi Hs Hsi.
    pose proof (extends_pass2_step bank st e) as (_ & Hbook & Hbank).
    apply elem_of_app in Hin as [Hin|Hin].
    + apply (IH bi b si s); auto.
    + apply list_elem_of_singleton in Hin as <-.
      destruct (pass2_step_cases bank st (bi, b))
        as [[Hm Heq]|[(_ & Hscan & Heq)|(_ & si' & _ & Heq)]]; rewrite Heq in *.
      * contradiction.
      * destruct (scan_None _ _ _ Hscan si s Hs) as [H|H]; [contradiction|exact H].
      * destruct Hbi. unfold record_match. cbn. apply elem_of_union. left.
        apply elem_of_singleton. reflexivity.
Qed.

(** *** The leftover frames *)

Lemma unmatched_elem (df : frame) (matched : gset nat) (e : nat * row) :
  e ∈ unmatched df matched <-> e ∈ df /\ e.1 ∉ matched.
Proof.
  unfold unmatched. rewrite !list_elem_of_In, filter_In, negb_true_iff, bool_decide_eq_false.
  reflexivity.
Qed.

Lemma filter_labels_NoDup (f : nat * row -> bool) (df : frame) :
  NoDup df.*1 -> NoDup (List.filter f df).*1.
Proof.
  induction df as [|e df IH]; intros Hnd; [constructor|].
  cbn in Hnd. apply NoDup_cons in Hnd as [He Hnd]. cbn [List.filter].
  destruct (f e); [|apply IH, Hnd].
  cbn. apply NoDup_cons. split; [|apply IH, Hnd].
  intros Hin. apply He. apply list_elem_of_fmap in Hin as [x [-> Hx]].
  apply list_elem_of_fmap. exists x. split; [reflexivity|].
  apply list_elem_of_In in Hx. apply filter_In in Hx as [Hx _].
  apply list_elem_of_In, Hx.
Qed.

Lemma match_transactions_unfold (book_df bank_df : list row) :
  match_transactions book_df bank_df =
    (pairs (final_state book_df bank_df),
     unmatched (indexed book_df) (book_matched (final_state book_df bank_df)),
     unmatched (indexed bank_df) (bank_matched (final_state book_df bank_df))).
Proof. reflexivity. Qed.

Lemma final_state_invariant (book_df bank_df : list row) :
  one_to_one (final_state book_df bank_df)
  /\ sound (indexed book_df) (indexed bank_df) (final_state book_df bank_df).
Proof.
  unfold final_state, pass2, pass1.
  destruct (pass1_run (indexed bank_df) (indexed book_df) (indexed_NoDup book_df))
    as (H11 & Hsound & _ & _).
  apply pass2_run; auto.
Qed.

(** ** C2: matching is one to one *)

(** C2. In the result of [match_transactions] no ledger index and no
    statement index occurs in two pairs, whatever the pass that made them;
    every pair joins a row of each frame; and the rows of a frame whose
    index is in no pair are, each once, the rows of its leftover frame. *)
Theorem match_one_to_one (book_df bank_df : list row) :
  let '(matched_pairs, book_only, bank_only) := match_transactions book_df bank_df in
  NoDup (book_idx <$> matched_pairs)
  /\ NoDup (bank_idx <$> matched_pairs)
  /\ (forall p, p ∈ matched_pairs ->
        is_Some (book_df !! book_idx p) /\ is_Some (bank_df !! bank_idx p))
  /\ (forall i r, (i, r) ∈ book_only <->
        book_df !! i = Some r /\ (i ∉ book_idx <$> matched_pairs))
  /\ (forall i r, (i, r) ∈ bank_only <->
        bank_df !! i = Some r /\ (i ∉ bank_idx <$> matched_pairs))
  /\ NoDup book_only.*1
  /\ NoDup bank_only.*1.
Proof.
  rewrite match_transactions_unfold.
  destruct (final_state_invariant book_df bank_df) as [(Hb & Hs & Hbm & Hsm) Hsound].
  split; [exact Hb|]. split; [exact Hs|].
  split.
  { intros p Hp. destruct (Hsound p Hp) as (b & s & H1 & H2 & _).
    apply indexed_elem in H1, H2. rewrite H1, H2. split; eexists; reflexivity. }
  split.
  { intros i r. rewrite unmatched_elem, indexed_elem. cbn [fst]. rewrite Hbm. reflexivity. }
  split.
  { intros i r. rewrite unmatched_elem, indexed_elem. cbn [fst]. rewrite Hsm. reflexivity. }
  split; apply filter_labels_NoDup, indexed_NoDup.
Qed.

(** ** C3: the probable pass and its window *)

(** The window in nanoseconds: the floor of the difference in days is
    between -3 and 3. *)
Lemma within_proximity_spec (tb ts : Z) :
  within_proximity (Some tb) (Some ts) = true <->
  -3 * ns_per_day <= tb - ts < 4 * ns_per_day.
Proof.
  unfold within_proximity, days_diff, DATE_PROXIMITY_DAYS. rewrite Z.leb_le.
  unfold ns_per_day.
  pose proof (Z.div_mod (tb - ts) 86400000000000 ltac:(lia)) as Hdm.
  pose proof (Z.mod_pos_bound (tb - ts) 86400000000000 ltac:(lia)) as Hb.
  lia.
Qed.

(** Dates at most three days apart, in either direction, are in the
    window. *)
Lemma within_three_days (tb ts : Z) :
  Z.abs (tb - ts) <= 3 * ns_per_day -> within_proximity (Some tb) (Some ts) = true.
Proof. intros H. apply within_proximity_spec. unfold ns_per_day in *. lia. Qed.

(** Dates four days apart are not. *)
Lemma beyond_four_days (tb ts : Z) :
  Z.abs (tb - ts) = 4 * ns_per_day -> within_proximity (Some tb) (Some ts) = false.
Proof.
  intros H. apply not_true_iff_false. rewrite within_proximity_spec.
  unfold ns_per_day in *. lia.
Qed.

Lemma leftover_not_probable (book_df bank_df : list row) (b s : nat * row) :
  b ∈ (match_transactions book_df bank_df).1.2 ->
  s ∈ (match_transactions book_df bank_df).2 ->
  probable_test b.2 s.2 = false.
Proof.
  rewrite match_transactions_unfold. cbn [fst snd].
  rewrite !unmatched_elem. intros [Hb Hbi] [Hs Hsi].
  destruct b as [bi b], s as [si s]. cbn [fst snd] in *.
  unfold final_state, pass2 in Hbi, Hsi.
  exact (pass2_complete (indexed bank_df) (indexed book_df) _ bi b si s Hb Hbi Hs Hsi).
Qed.

Lemma scan_single (test : row -> bool) (s : row) :
  scan test ∅ [(0%nat, s)] = if test s then Some 0%nat else None.
Proof.
  cbn [scan]. rewrite bool_decide_eq_false_2 by set_solver. destruct (test s); reflexivity.
Qed.

(** Two one-row frames whose rows fail the exact test: matched as Probable
    when they pass the probable test. *)
Lemma match_single_probable (b s : row) :
  exact_test b s = false -> probable_test b s = true ->
  match_transactions [b] [s] = ([MatchPair 0 0 Probable], [], []).
Proof.
  intros He Hp. unfold match_transactions, pass1, pass2, indexed. cbn [length seq zip zip_with foldl].
  unfold pass1_step. cbn [snd fst bank_matched]. rewrite scan_single, He.
  unfold pass2_step. cbn [snd fst bank_matched book_matched].
  rewrite bool_decide_eq_false_2 by set_solver. rewrite scan_single, Hp.
  unfold record_match, unmatched. cbn [pairs book_matched bank_matched app List.filter fst].
  rewrite !bool_decide_eq_true_2 by set_solver. reflexivity.
Qed.

(** And left in the two leftover frames when they fail it. *)
Lemma match_single_none (b s : row) :
  exact_test b s = false -> probable_test b s = false ->
  match_transactions [b] [s] = ([], [(0%nat, b)], [(0%nat, s)]).
Proof.
  intros He Hp. unfold match_transactions, pass1, pass2, indexed. cbn [length seq zip zip_with foldl].
  unfold pass1_step. cbn [snd fst bank_matched]. rewrite scan_single, He.
  unfold pass2_step. cbn [snd fst bank_matched book_matched].
  rewrite bool_decide_eq_false_2 by set_solver. rewrite scan_single, Hp.
  unfold unmatched. cbn [pairs book_matched bank_matched List.filter fst].
  rewrite !bool_decide_eq_false_2 by set_solver. reflexivity.
Qed.

(** C3. After [match_transactions] no leftover ledger row and leftover
    statement row have equal rounded amounts and dates in the window, in
    particular none have dates at most three days apart.  The window
    includes its boundary: of two one-row frames with equal rounded amounts
    and different references, the rows are matched as Probable when their
    dates are exactly three days apart, and both left over when they are
    four days apart. *)
Theorem probable_pass_window (book_df bank_df : list row) (b s : row) (tb ts : Z) :
  (forall x y : nat * row,
     x ∈ (match_transactions book_df bank_df).1.2 ->
     y ∈ (match_transactions book_df bank_df).2 ->
     feqb (round2 (_amount x.2)) (round2 (_amount y.2)) = true ->
     within_proximity (Date x.2) (Date y.2) = false
     /\ forall tx ty, Date x.2 = Some tx -> Date y.2 = Some ty ->
                      Z.abs (tx - ty) > 3 * ns_per_day)
  /\ (feqb (round2 (_amount b)) (round2 (_amount s)) = true ->
      upper (Reference b) <> upper (Reference s) ->
      Date b = Some tb -> Date s = Some ts ->
      (Z.abs (tb - ts) = 3 * ns_per_day ->
       match_transactions [b] [s] = ([MatchPair 0 0 Probable], [], []))
      /\ (Z.abs (tb - ts) = 4 * ns_per_day ->
          match_transactions [b] [s] = ([], [(0%nat, b)], [(0%nat, s)]))).
Proof.
  split.
  - intros x y Hx Hy Hamt.
    pose proof (leftover_not_probable book_df bank_df x y Hx Hy) as Hp.
    unfold probable_test in Hp. rewrite Hamt in Hp. cbn [andb] in Hp.
    split; [exact Hp|]. intros tx ty Htx Hty. rewrite Htx, Hty in Hp.
    destruct (Z_le_gt_dec (Z.abs (tx - ty)) (3 * ns_per_day)) as [Hle|Hgt]; [|exact Hgt].
    rewrite (within_three_days _ _ Hle) in Hp. discriminate.
  - intros Hamt Href Hdb Hds.
    assert (He : exact_test b s = false).
    { unfold exact_test, str_eqb. rewrite bool_decide_eq_false_2 by exact Href. reflexivity. }
    split; intros Hdist.
    + apply match_single_probable; [exact He|].
      unfold probable_test. rewrite Hamt, Hdb, Hds. apply within_three_days. lia.
    + apply match_single_none; [exact He|].
      unfold probable_test. rewrite Hamt, Hdb, Hds. apply beyond_four_days, Hdist.
Qed.

(** ** C4: the exact pass *)

(** A ledger row and a statement row that pass the exact test, each the
    only row of its frame to pass it against the other, are paired by
    pass 1. *)
Lemma pass1_exact_unique (book bank : frame) (bi si : nat) (b s : row) :
  NoDup book.*1 -> NoDup bank.*1 ->
  (bi, b) ∈ book -> (si, s) ∈ bank -> exact_test b s = true ->
  (forall bi' b', (bi', b') ∈ book -> exact_test b' s = true -> bi' = bi) ->
  (forall si' s', (si', s') ∈ bank -> exact_test b s' = true -> si' = si) ->
  MatchPair bi si Exact ∈ pairs (pass1 book bank).
Proof.
  intros Hnb Hns Hb Hs Ht U1 U2.
  apply list_elem_of_split in Hb as (l1 & l2 & Hbook).
  unfold pass1. rewrite Hbook, foldl_app. cbn [foldl].
  set (st1 := foldl (pass1_step bank) (MState [] ∅ ∅) l1).
  assert (Hl1 : NoDup l1.*1 /\ (bi ∉ l1.*1)).
  { rewrite Hbook, fmap_app in Hnb. apply NoDup_app in Hnb as (H1 & H2 & _).
    split; [exact H1|]. intros Hin. apply (H2 bi Hin). cbn. left. }
  destruct Hl1 as [Hnd1 Hfresh].
  destruct (pass1_run bank l1 Hnd1) as ((_ & _ & _ & Hsm) & Hsound & _ & Hexact).
  fold st1 in Hsm, Hsound, Hexact.
  assert (Hfree : si ∉ bank_matched st1).
  { intros Hin. apply Hsm in Hin. apply list_elem_of_fmap in Hin as [p [Hp Hin]].
    destruct (Hsound p Hin) as (b' & s' & Hb' & Hs' & Htest).
    rewrite (Hexact p Hin) in Htest. cbn in Htest. rewrite <- Hp in Hs'.
    rewrite <- (label_functional bank si s s' Hns Hs Hs') in Htest.
    assert (book_idx p = bi) as Hidx.
    { apply (U1 _ b'); [|exact Htest]. rewrite Hbook. apply elem_of_app. left. exact Hb'. }
    apply Hfresh. apply list_elem_of_fmap. exists (book_idx p, b').
    split; [symmetry; exact Hidx|exact Hb']. }
  assert (Hstep : pass1_step bank st1 (bi, b) = record_match st1 bi si Exact).
  { unfold pass1_step. cbn [fst snd].
    rewrite (scan_unique (exact_test b) (bank_matched st1) bank si s); auto.
    intros si' s' Hin _ Hpass. exact (U2 si' s' Hin Hpass). }
  rewrite Hstep.
  apply (extends_foldl (pass1_step bank) l2 _ (extends_pass1_step bank)).
  unfold record_match. cbn. apply elem_of_app. right. left.
Qed.

Lemma filter_length_perm {A : Type} (f : A -> bool) (l l' : list A) :
  l ≡ₚ l' -> length (List.filter f l) = length (List.filter f l').
Proof.
  induction 1 as [|x l l' _ IH|x y l|l1 l2 l3 _ IH1 _ IH2]; cbn [List.filter].
  - reflexivity.
  - destruct (f x); cbn; congruence.
  - destruct (f x), (f y); reflexivity.
  - congruence.
Qed.

Lemma filter_length_zero {A : Type} (f : A -> bool) (l : list A) (x : A) :
  length (List.filter f l) = 0%nat -> x ∈ l -> f x = false.
Proof.
  intros Hlen Hx. destruct (f x) eqn:E; [|reflexivity].
  assert (Hin : In x (List.filter f l)) by (apply filter_In; split; [apply list_elem_of_In, Hx|exact E]).
  destruct (List.filter f l); [destruct Hin|discriminate].
Qed.

(** When exactly one row passes, the rows that pass are at one position. *)
Lemma filter_length_one {A : Type} (f : A -> bool) (l : list A) (i j : nat) (x y : A) :
  length (List.filter f l) = 1%nat ->
  l !! i = Some x -> f x = true -> l !! j = Some y -> f y = true -> i = j.
Proof.
  revert i j. induction l as [|a l IH]; intros i j Hlen Hi Hx Hj Hy; [discriminate|].
  cbn [List.filter] in Hlen. destruct (f a) eqn:Ha.
  - cbn in Hlen. injection Hlen as Hlen.
    destruct i as [|i], j as [|j]; [reflexivity| | |]; exfalso.
    + cbn in Hj. apply list_elem_of_lookup_2 in Hj.
      pose proof (filter_length_zero f l y Hlen Hj). congruence.
    + cbn in Hi. apply list_elem_of_lookup_2 in Hi.
      pose proof (filter_length_zero f l x Hlen Hi). congruence.
    + cbn in Hi. apply list_elem_of_lookup_2 in Hi.
      pose proof (filter_length_zero f l x Hlen Hi). congruence.
  - destruct i as [|i]; [cbn in Hi; congruence|].
    destruct j as [|j]; [cbn in Hj; congruence|].
    f_equal. apply IH; assumption.
Qed.

(** C4, as the code has it.  A ledger row and a statement row with the same
    upper-cased reference and the same rounded amount are paired with each
    other, as an Exact match, in every order of the rows of the two frames,
    provided each is the only row of its frame that agrees with the other
    on reference and amount. *)
Theorem exact_pass_unique_key
    (book_df bank_df book_df' bank_df' : list row) (b s : row) :
  book_df ≡ₚ book_df' -> bank_df ≡ₚ bank_df' ->
  b ∈ book_df -> s ∈ bank_df ->
  exact_test b s = true ->
  length (List.filter (fun b' => exact_test b' s) book_df) = 1%nat ->
  length (List.filter (fun s' => exact_test b s') bank_df) = 1%nat ->
  exists bi si,
    book_df' !! bi = Some b /\ bank_df' !! si = Some s
    /\ MatchPair bi si Exact ∈ (match_transactions book_df' bank_df').1.1.
Proof.
  intros Hpb Hps Hb Hs Ht Hcb Hcs.
  rewrite (filter_length_perm _ _ _ Hpb) in Hcb.
  rewrite (filter_length_perm _ _ _ Hps) in Hcs.
  rewrite Hpb in Hb. rewrite Hps in Hs.
  apply list_elem_of_lookup in Hb as [bi Hbi], Hs as [si Hsi].
  exists bi, si. split; [exact Hbi|]. split; [exact Hsi|].
  rewrite match_transactions_unfold. cbn [fst].
  unfold final_state, pass2.
  apply (extends_foldl (pass2_step (indexed bank_df')) (indexed book_df') _
           (extends_pass2_step (indexed bank_df'))).
  apply (pass1_exact_unique _ _ bi si b s);
    try apply indexed_NoDup; try (apply indexed_elem; assumption); try assumption.
  - intros bi' b' Hin Hpass. apply indexed_elem in Hin.
    exact (filter_length_one (fun b' => exact_test b' s) book_df' bi' bi b' b
             Hcb Hin Hpass Hbi Ht).
  - intros si' s' Hin Hpass. apply indexed_elem in Hin.
    exact (filter_length_one (fun s' => exact_test b s') bank_df' si' si s' s
             Hcs Hin Hpass Hsi Ht).
Qed.

(** ** The January 2026 books, end to end *)

Example jan_balances :
  balances_are (load_cash_ledger (Data cash_ledger_jan2026) jan_start jan_end)
    1500000 1438500 = true
  /\ balances_are (load_bank_statement (Data bank_statement_jan2026) jan_start jan_end)
    1500000 1495500 = true.
Proof. split; vm_compute; reflexivity. Qed.

Example jan_leftovers :
  length jan_result.1.1 = 30%nat
  /\ labels_refs jan_result.1.2
     = [(26%nat, "CRJ-013"); (27%nat, "CPJ-015"); (31%nat, "PAY-004")]%string
  /\ labels_refs jan_result.2 = [(26%nat, "DIRECT-01"); (31%nat, "INT-001")]%string.
Proof. repeat split; vm_compute; reflexivity. Qed.

Example jan_buckets :
  labels_refs jan_deposits = [(26%nat, "CRJ-013")]%string
  /\ labels_refs jan_cheques = [(27%nat, "CPJ-015"); (31%nat, "PAY-004")]%string
  /\ labels_refs jan_credits = [(31%nat, "INT-001")]%string
  /\ labels_refs jan_debits = [(26%nat, "DIRECT-01")]%string.
Proof. repeat split; vm_compute; reflexivity. Qed.

Example jan_reconciled :
  let r := build_reconciliation (of_Z 1438500) (of_Z 1495500)
             jan_deposits jan_cheques jan_credits jan_debits in
  feqb (adjusted_bank r) (of_Z 1435500) = true
  /\ feqb (adjusted_book r) (of_Z 1435500) = true
  /\ feqb (difference r) zero = true
  /\ reconciled r = true.
Proof. repeat split; vm_compute; reflexivity. Qed.

Example jan_adjusting_entries :
  (fun e : adjusting_entry => (category e, dr_code e, cr_code e))
    <$> build_adjusting_entries jan_credits jan_debits
  = [("Bank Interest Earned", "1020", "4110");
     ("Software / Subscription", "5220", "1020")]%string
  /\ balanced (build_adjusting_entries jan_credits jan_debits) = true.
Proof. split; vm_compute; reflexivity. Qed.

(** ** Instances *)

Lemma build_reconciliation_formula_witness :
  let r := build_reconciliation (of_Z 1438500) (of_Z 1495500)
             [(0%nat, deposit_30th)] [(1%nat, cheque_a); (2%nat, cheque_b)] [] [] in
  adjusted_bank r =
    fsub (fadd (of_Z 1495500) (series_sum (amounts [(0%nat, deposit_30th)])))
         (series_sum (fabs <$> amounts [(1%nat, cheque_a); (2%nat, cheque_b)]))
  /\ (reconciled r = true <-> difference r = zero)
  /\ adjusted_bank (build_reconciliation (of_Z 1438500) (of_Z 1495500) [] [] [] [])
     = of_Z 1495500.
Proof.
  cbv zeta.
  destruct (build_reconciliation_formula (of_Z 1438500) (of_Z 1495500)
              [(0%nat, deposit_30th)] [(1%nat, cheque_a); (2%nat, cheque_b)] [] [])
    as (_ & _ & _ & Hrec & Hneg & _ & _).
  split.
  - apply Hneg. intros e He.
    apply elem_of_cons in He as [->|He]; [vm_compute; reflexivity|].
    apply list_elem_of_singleton in He as ->. vm_compute. reflexivity.
  - split; [exact Hrec|].
    destruct (build_reconciliation_formula (of_Z 1438500) (of_Z 1495500) [] [] [] [])
      as (_ & _ & _ & _ & _ & _ & Hempty).
    exact (proj1 (Hempty eq_refl eq_refl eq_refl eq_refl)).
Defined.

Lemma probable_pass_window_witness :
  match_transactions [payment_10th] [debit_13th] = ([MatchPair 0 0 Probable], [], [])
  /\ match_transactions [payment_10th] [debit_14th]
     = ([], [(0%nat, payment_10th)], [(0%nat, debit_14th)])
  /\ within_proximity (Date payment_10th) (Date debit_14th) = false.
Proof.
  destruct (probable_pass_window [payment_10th] [debit_14th]
              payment_10th debit_13th (day 20463) (day 20466)) as [_ H3].
  destruct (probable_pass_window [payment_10th] [debit_14th]
              payment_10th debit_14th (day 20463) (day 20467)) as [Hleft H4].
  split; [|split].
  - apply H3; [vm_compute; reflexivity|discriminate|reflexivity|reflexivity|reflexivity].
  - apply H4; [vm_compute; reflexivity|discriminate|reflexivity|reflexivity|reflexivity].
  - apply (Hleft (0%nat, payment_10th) (0%nat, debit_14th)).
    + rewrite (proj2 (H4 ltac:(vm_compute; reflexivity) ltac:(discriminate)
                         eq_refl eq_refl) eq_refl). left.
    + rewrite (proj2 (H4 ltac:(vm_compute; reflexivity) ltac:(discriminate)
                         eq_refl eq_refl) eq_refl). left.
    + vm_compute. reflexivity.
Defined.

Lemma exact_pass_unique_key_witness :
  exists bi si,
    [cheque_b; payment_10th] !! bi = Some cheque_b
    /\ [debit_13th; cheque_cleared] !! si = Some cheque_cleared
    /\ MatchPair bi si Exact
       ∈ (match_transactions [cheque_b; payment_10th] [debit_13th; cheque_cleared]).1.1.
Proof.
  apply (exact_pass_unique_key [payment_10th; cheque_b] [cheque_cleared; debit_13th]).
  - apply perm_swap.
  - apply perm_swap.
  - right. left.
  - left.
  - vm_compute. reflexivity.
  - vm_compute. reflexivity.
  - vm_compute. reflexivity.
Defined.

Lemma categorize_bank_item_rules_witness :
  spec_categorize subscription (of_Z (-18000))
    = Some (categorize_bank_item subscription (of_Z (-18000)))
  /\ categorize_bank_item subscription (of_Z (-18000))
     = Suggestion "Software / Subscription" "Telephone & Internet" "5220"
                  "Cash at Bank" "1020" (fabs (of_Z (-18000))) (fabs (of_Z (-18000))).
Proof.
  destruct (categorize_bank_item_rules subscription (of_Z (-18000))) as (H1 & _ & H3).
  split.
  - apply H1. right. vm_compute. reflexivity.
  - apply H3; [reflexivity|vm_compute; reflexivity].
Defined.

Lemma adjusting_entries_check_witness :
  balanced (build_adjusting_entries [(0%nat, deposit_30th)] [(1%nat, debit_14th)]) = true
  /\ balanced (build_adjusting_entries
                (classify_bank_only [(0%nat, transfer_in); (1%nat, transfer_in)]).1
                (classify_bank_only [(0%nat, transfer_in); (1%nat, transfer_in)]).2) = false.
Proof.
  split.
  - apply (adjusting_entries_check [(0%nat, deposit_30th)] [(1%nat, debit_14th)]).
    eexists. vm_compute. reflexivity.
  - apply (proj2 (proj2 (proj2 (proj2 (proj2 (proj2 (adjusting_entries_check _ _))))))
             [(0%nat, transfer_in); (1%nat, transfer_in)] eq_refl eq_refl).
    vm_compute. reflexivity.
Defined.

Lemma closing_defaults_to_opening_witness :
  exists period_df,
    load_cash_ledger (Data ledger_february) jan_start jan_end = inr (period_df, zero, zero).
Proof.
  destruct (proj1 (closing_defaults_to_opening ledger_february [] jan_start jan_end))
    as (period_df & opening_balance & Heq & _ & Hzero).
  - intros x Hx. apply list_elem_of_singleton in Hx as ->. reflexivity.
  - exists period_df. rewrite Heq, Hzero; [reflexivity|].
    vm_compute. discriminate.
Defined.

(** ** C4: why the claim needs the proviso *)

(** C4, as stated, fails.  With one reference entered twice in the ledger,
    the second ledger row agrees with the statement row on reference and
    amount and is in no pair with it; and which of the two ledger rows is
    paired depends on their order. *)
Lemma exact_pairs_depend_on_order :
  ~ (forall (book_df bank_df : list row) (bi si : nat) (b s : row),
       book_df !! bi = Some b -> bank_df !! si = Some s ->
       exact_test b s = true ->
       exists p, p ∈ (match_transactions book_df bank_df).1.1
                 /\ book_idx p = bi /\ bank_idx p = si /\ match_type p = Exact)
  /\ matched_descriptions [cheque_a; cheque_b] [cheque_cleared]
     = [(Some "Cheque to supplier A", Some "Cheque 100")]%string
  /\ matched_descriptions [cheque_b; cheque_a] [cheque_cleared]
     = [(Some "Cheque to supplier B", Some "Cheque 100")]%string.
Proof.
  split; [|split; vm_compute; reflexivity].
  intros H.
  destruct (H [cheque_a; cheque_b] [cheque_cleared] 1%nat 0%nat cheque_b cheque_cleared
              eq_refl eq_refl ltac:(vm_compute; reflexivity)) as (p & Hp & Hbi & _).
  assert (Hpairs : (match_transactions [cheque_a; cheque_b] [cheque_cleared]).1.1
                   = [MatchPair 0 0 Exact]) by (vm_compute; reflexivity).
  rewrite Hpairs in Hp. apply list_elem_of_singleton in Hp as ->. discriminate.
Qed.

(** ** C8: why the claim needs the proviso *)

(** C8, as stated, fails.  Two deposits of [2^1023] on the statement, each a
    finite double with a sign, reach the adjusting entries through
    [classify_bank_only]; their total overflows, both totals are the infinity
    above, the difference is NaN and the check fails.  So does the check on an
    item whose amount is NaN. *)
Lemma adjusting_entries_check_can_fail :
  ~ (forall bank_credits bank_debits : frame,
       balanced (build_adjusting_entries bank_credits bank_debits) = true)
  /\ (classify_bank_only [(0%nat, transfer_in); (1%nat, transfer_in)]).1
     = [(0%nat, transfer_in); (1%nat, transfer_in)]
  /\ of_float (_amount transfer_in) = DFin (Q2Qc (inject_Z (2 ^ 1023)))
  /\ adjusting_totals (build_adjusting_entries
                         [(0%nat, transfer_in); (1%nat, transfer_in)] [])
     = (DInf false, DInf false)
  /\ balanced (build_adjusting_entries [(0%nat, transfer_in); (1%nat, transfer_in)] [])
     = false
  /\ balanced (build_adjusting_entries [(0%nat, interest_31st)] []) = false.
Proof.
  assert (Hfail : balanced (build_adjusting_entries
                              [(0%nat, transfer_in); (1%nat, transfer_in)] []) = false)
    by (vm_compute; reflexivity).
  split; [|split; [|split; [|split; [|split]]]].
  - intros H. rewrite H in Hfail. discriminate.
  - vm_compute. reflexivity.
  - vm_compute. reflexivity.
  - vm_compute. reflexivity.
  - exact Hfail.
  - vm_compute. reflexivity.
Qed.

(** * Further properties *)

(** ** More on the matcher *)

(** After pass 1 over the rows [l], an unmatched row of [l] and an unmatched
    statement row do not pass the exact test. *)
Lemma pass1_complete (bank l : frame) :
  let st := foldl (pass1_step bank) (MState [] ∅ ∅) l in
  forall bi b si s,
    (bi, b) ∈ l -> bi ∉ book_matched st ->
    (si, s) ∈ bank -> si ∉ bank_matched st ->
    exact_test b s = false.
Proof.
  induction l as [|e l IH] using rev_ind; cbn zeta.
  - intros bi b si s Hin. inversion Hin.
  - rewrite foldl_snoc. set (st := foldl (pass1_step bank) (MState [] ∅ ∅) l) in *.
    intros bi b si s Hin Hbi Hs Hsi.
    pose proof (extends_pass1_step bank st e) as (_ & Hbook & Hbank).
    apply elem_of_app in Hin as [Hin|Hin].
    + apply (IH bi b si s); auto.
    + apply list_elem_of_singleton in Hin as <-.
      destruct (pass1_step_cases bank st (bi, b)) as [[Hscan Heq]|(si' & _ & Heq)];
        rewrite Heq in *.
      * destruct (scan_None _ _ _ Hscan si s Hs) as [H|H]; [contradiction|exact H].
      * destruct Hbi. unfold record_match. cbn. apply elem_of_union. left.
        apply elem_of_singleton. reflexivity.
Qed.

(** A pair pass 2 adds is a Probable pair of two indices that were free
    when the pass began. *)
Lemma pass2_trace (bank l : frame) (st0 : mstate) (p : match_pair) :
  p ∈ pairs (foldl (pass2_step bank) st0 l) ->
  p ∈ pairs st0
  \/ (match_type p = Probable
      /\ (book_idx p ∉ book_matched st0) /\ (bank_idx p ∉ bank_matched st0)).
Proof.
  revert st0. induction l as [|e l IH]; intros st0 Hp; [left; exact Hp|].
  cbn [foldl] in Hp. apply IH in Hp.
  pose proof (extends_pass2_step bank st0 e) as (_ & Hbook & Hbank).
  destruct Hp as [Hp|(Hk & Hb & Hs)].
  2:{ right. split; [exact Hk|].
      split; intros H; [apply Hb, Hbook, H|apply Hs, Hbank, H]. }
  destruct (pass2_step_cases bank st0 e) as [[_ Heq]|[(_ & _ & Heq)|(He & si & Hscan & Heq)]];
    rewrite Heq in Hp; [left; exact Hp|left; exact Hp|].
  unfold record_match in Hp. cbn in Hp.
  apply elem_of_app in Hp as [Hp|Hp]; [left; exact Hp|].
  apply list_elem_of_singleton in Hp as ->. right. cbn.
  apply scan_Some in Hscan as [Hsi _]. split; [reflexivity|]. split; assumption.
Qed.

(** The facts about the final state the statements below start from. *)
Lemma final_state_pass1 (book_df bank_df : list row) :
  let st1 := pass1 (indexed book_df) (indexed bank_df) in
  extends st1 (final_state book_df bank_df)
  /\ (forall p, p ∈ pairs st1 -> match_type p = Exact)
  /\ (forall p, p ∈ pairs (final_state book_df bank_df) ->
        p ∈ pairs st1
        \/ (match_type p = Probable
            /\ (book_idx p ∉ book_matched st1) /\ (bank_idx p ∉ bank_matched st1))).
Proof.
  cbn zeta. unfold final_state, pass2. split; [|split].
  - apply extends_foldl, extends_pass2_step.
  - apply (pass1_run (indexed bank_df) (indexed book_df) (indexed_NoDup book_df)).
  - intros p. apply pass2_trace.
Qed.

Lemma exact_test_spec (b s : row) :
  exact_test b s = true <->
  upper (Reference b) = upper (Reference s)
  /\ feqb (round2 (_amount b)) (round2 (_amount s)) = true.
Proof.
  unfold exact_test, str_eqb. rewrite andb_true_iff, bool_decide_eq_true. reflexivity.
Qed.

Lemma probable_test_spec (b s : row) :
  probable_test b s = true <->
  feqb (round2 (_amount b)) (round2 (_amount s)) = true
  /\ within_proximity (Date b) (Date s) = true.
Proof. unfold probable_test. apply andb_true_iff. Qed.

(** X1. Every pair [match_transactions] returns joins a ledger row and a
    statement row that exist under its two labels, so the lookups
    [book_df.loc[bi]] and [bank_df.loc[si]] of [write_matched_items] succeed;
    the two rows have the same rounded amount, in an Exact pair the same
    uppercased reference, in a Probable pair dates within the window. *)
Theorem matched_pairs_pass_their_test (book_df bank_df : list row) :
  Forall (fun p =>
    exists b s : row,
      book_df !! book_idx p = Some b /\ bank_df !! bank_idx p = Some s
      /\ feqb (round2 (_amount b)) (round2 (_amount s)) = true
      /\ match match_type p with
         | Exact => upper (Reference b) = upper (Reference s)
         | Probable => within_proximity (Date b) (Date s) = true
         end)
    (match_transactions book_df bank_df).1.1.
Proof.
  rewrite match_transactions_unfold. cbn [fst]. apply Forall_forall. intros p Hp.
  destruct (final_state_invariant book_df bank_df) as [_ Hsound].
  destruct (Hsound p Hp) as (b & s & Hb & Hs & Ht).
  apply indexed_elem in Hb, Hs. exists b, s. split; [exact Hb|]. split; [exact Hs|].
  destruct (match_type p); cbn in Ht.
  - apply exact_test_spec in Ht as [? ?]. auto.
  - apply probable_test_spec in Ht as [? ?]. auto.
Qed.

(** X2. The two rows of a Probable pair differ in their uppercased
    references: a ledger row reaches the second pass only when the first
    pass found no free statement row with its reference and amount, and such
    a row would still be free. *)
Theorem probable_pairs_differ_in_reference (book_df bank_df : list row) :
  Forall (fun p =>
    match_type p = Probable ->
    forall b s : row,
      book_df !! book_idx p = Some b -> bank_df !! bank_idx p = Some s ->
      upper (Reference b) <> upper (Reference s))
    (match_transactions book_df bank_df).1.1.
Proof.
  rewrite match_transactions_unfold. cbn [fst]. apply Forall_forall.
  intros p Hp Hk b s Hb Hs Href.
  destruct (final_state_pass1 book_df bank_df) as (_ & Hexact & Htrace).
  destruct (Htrace p Hp) as [Hold|(_ & Hbi & Hsi)].
  { rewrite (Hexact p Hold) in Hk. discriminate. }
  destruct (final_state_invariant book_df bank_df) as [_ Hsound].
  destruct (Hsound p Hp) as (b' & s' & Hb' & Hs' & Ht).
  apply indexed_elem in Hb', Hs'. rewrite Hb in Hb'. rewrite Hs in Hs'.
  injection Hb' as <-. injection Hs' as <-.
  rewrite Hk in Ht. cbn in Ht. apply probable_test_spec in Ht as [Hamt _].
  assert (Hno : exact_test b s = false).
  { apply (pass1_complete (indexed bank_df) (indexed book_df) (book_idx p) b (bank_idx p) s);
      try (apply indexed_elem; assumption); assumption. }
  assert (Hyes : exact_test b s = true) by (apply exact_test_spec; auto).
  congruence.
Qed.

(** X3. No leftover ledger row and leftover statement row agree on both
    the uppercased reference and the rounded amount. *)
Theorem leftover_not_exact (book_df bank_df : list row) :
  Forall (fun x : nat * row =>
    Forall (fun y : nat * row =>
      ~ (upper (Reference x.2) = upper (Reference y.2)
         /\ feqb (round2 (_amount x.2)) (round2 (_amount y.2)) = true))
      (match_transactions book_df bank_df).2)
    (match_transactions book_df bank_df).1.2.
Proof.
  rewrite match_transactions_unfold. cbn [fst snd].
  apply Forall_forall. intros [bi b] Hx. apply Forall_forall. intros [si s] Hy.
  apply unmatched_elem in Hx as [Hb Hbi], Hy as [Hs Hsi]. cbn [fst snd] in *.
  destruct (final_state_pass1 book_df bank_df) as ((_ & Hbook & Hbank) & _ & _).
  intros Hkey. apply exact_test_spec in Hkey.
  rewrite (pass1_complete (indexed bank_df) (indexed book_df) bi b si s) in Hkey;
    [discriminate|auto..].
Qed.

(** *** Counting *)

Lemma filter_length_split {A : Type} (f : A -> bool) (l : list A) :
  (length (List.filter f l) + length (List.filter (fun x => negb (f x)) l))%nat = length l.
Proof.
  induction l as [|x l IH]; [reflexivity|].
  cbn [List.filter]. destruct (f x); cbn; lia.
Qed.

(** In a frame with distinct labels, the labels of the rows whose label is
    in a set are the labels listed once for that set, in some order. *)
Lemma matched_labels (df : frame) (matched : gset nat) (idxs : list nat) :
  NoDup df.*1 -> NoDup idxs ->
  (forall i, i ∈ matched <-> i ∈ idxs) ->
  (forall i, i ∈ idxs -> i ∈ df.*1) ->
  idxs ≡ₚ (List.filter (fun e : nat * row => bool_decide (e.1 ∈ matched)) df).*1.
Proof.
  intros Hdf Hidx Hset Hsub.
  apply NoDup_Permutation; [exact Hidx|apply filter_labels_NoDup, Hdf|].
  intros i. rewrite list_elem_of_fmap. split.
  - intros Hi. pose proof (Hsub i Hi) as Hin.
    apply list_elem_of_fmap in Hin as [e [-> He]]. exists e. split; [reflexivity|].
    apply list_elem_of_In, filter_In. split; [apply list_elem_of_In, He|].
    apply bool_decide_eq_true, Hset, Hi.
  - intros [e [-> He]]. apply list_elem_of_In, filter_In in He as [_ He].
    apply bool_decide_eq_true in He. apply Hset, He.
Qed.

(** They are as many as those labels. *)
Lemma matched_rows_count (df : frame) (matched : gset nat) (idxs : list nat) :
  NoDup df.*1 -> NoDup idxs ->
  (forall i, i ∈ matched <-> i ∈ idxs) ->
  (forall i, i ∈ idxs -> i ∈ df.*1) ->
  (length idxs + length (unmatched df matched))%nat = length df.
Proof.
  intros Hdf Hidx Hset Hsub.
  rewrite <- (filter_length_split (fun e : nat * row => bool_decide (e.1 ∈ matched)) df).
  unfold unmatched. f_equal.
  rewrite <- (length_fmap fst (List.filter _ df)).
  apply Permutation_length, matched_labels; assumption.
Qed.

(** X4. The pairs and the leftover ledger rows are as many as the ledger
    rows, the pairs and the leftover statement rows as many as the statement
    rows: the three counts [main] prints and the dashboard shows account for
    every row once. *)
Theorem every_row_is_matched_or_left_over (book_df bank_df : list row) :
  let '(matched_pairs, book_only, bank_only) := match_transactions book_df bank_df in
  (length matched_pairs + length book_only)%nat = length book_df
  /\ (length matched_pairs + length bank_only)%nat = length bank_df.
Proof.
  rewrite match_transactions_unfold.
  destruct (final_state_invariant book_df bank_df) as [(Hb & Hs & Hbm & Hsm) Hsound].
  assert (Hlen : forall df : list row, length (indexed df) = length df).
  { intros df. rewrite <- (length_fmap fst), indexed_labels. apply length_seq. }
  split.
  - rewrite <- (Hlen book_df), <- (length_fmap book_idx).
    apply matched_rows_count; [apply indexed_NoDup|exact Hb|exact Hbm|].
    intros i Hi. apply list_elem_of_fmap in Hi as [p [-> Hp]].
    destruct (Hsound p Hp) as (b & s & H1 & _). apply list_elem_of_fmap.
    exists (book_idx p, b). auto.
  - rewrite <- (Hlen bank_df), <- (length_fmap bank_idx).
    apply matched_rows_count; [apply indexed_NoDup|exact Hs|exact Hsm|].
    intros i Hi. apply list_elem_of_fmap in Hi as [p [-> Hp]].
    destruct (Hsound p Hp) as (b & s & _ & H2 & _). apply list_elem_of_fmap.
    exists (bank_idx p, s). auto.
Qed.

(** *** Empty frames *)

Lemma unmatched_empty (df : frame) : unmatched df ∅ = df.
Proof.
  unfold unmatched. induction df as [|e df IH]; [reflexivity|].
  cbn [List.filter]. rewrite bool_decide_eq_false_2 by set_solver. cbn. rewrite IH.
  reflexivity.
Qed.

Lemma pass1_no_bank (book : frame) (st : mstate) :
  foldl (pass1_step []) st book = st.
Proof. revert st. induction book as [|e book IH]; intros st; [reflexivity|apply IH]. Qed.

Lemma pass2_no_bank (book : frame) (st : mstate) :
  foldl (pass2_step []) st book = st.
Proof.
  revert st. induction book as [|e book IH]; intros st; [reflexivity|].
  cbn [foldl]. unfold pass2_step at 2. cbn [scan].
  destruct (bool_decide _); apply IH.
Qed.

(** X7. With an empty ledger or an empty statement nothing is paired and
    every row of the other frame is left over. *)
Theorem match_with_an_empty_frame (df : list row) :
  match_transactions [] df = ([], [], indexed df)
  /\ match_transactions df [] = ([], indexed df, []).
Proof.
  split.
  - unfold match_transactions, pass1, pass2. cbn. f_equal. apply unmatched_empty.
  - unfold match_transactions, pass1, pass2. change (indexed []) with (@nil (nat * row)).
    rewrite pass1_no_bank, pass2_no_bank. cbn [pairs book_matched bank_matched].
    rewrite unmatched_empty. reflexivity.
Qed.

(** *** First fit *)

(** The scan stops at the first free statement row that passes the test:
    every row before it is matched already or fails the test. *)
Lemma scan_first_from (test : row -> bool) (bm : gset nat) (df : list row) (n si : nat) :
  scan test bm (zip (seq n (length df)) df) = Some si ->
  forall j s, df !! j = Some s -> (n + j < si)%nat ->
    (n + j)%nat ∈ bm \/ test s = false.
Proof.
  revert n. induction df as [|x df IH]; intros n Hscan j s Hj Hlt; [discriminate|].
  cbn [length seq zip zip_with scan] in Hscan.
  destruct j as [|j].
  - cbn in Hj. injection Hj as ->. rewrite Nat.add_0_r in *.
    destruct (bool_decide (n ∈ bm)) eqn:Hm;
      [apply bool_decide_eq_true in Hm; left; exact Hm|].
    destruct (test s) eqn:Ht; [|right; reflexivity].
    injection Hscan as <-. lia.
  - cbn in Hj. replace (n + S j)%nat with (S n + j)%nat in * by lia.
    destruct (bool_decide (n ∈ bm)); [apply (IH (S n)); assumption|].
    destruct (test x); [|apply (IH (S n)); assumption].
    injection Hscan as <-. lia.
Qed.

Lemma scan_first (test : row -> bool) (bm : gset nat) (df : list row) (si : nat) :
  scan test bm (indexed df) = Some si ->
  forall j s, df !! j = Some s -> (j < si)%nat -> j ∈ bm \/ test s = false.
Proof. intros Hscan j s Hj Hlt. exact (scan_first_from test bm df 0 si Hscan j s Hj Hlt). Qed.

Lemma first_fit_record (book_df bank_df : list row) (st : mstate)
    (bi si : nat) (b : row) (k : match_kind) :
  one_to_one st -> first_fit book_df bank_df (pairs st) ->
  book_df !! bi = Some b ->
  scan (kind_test k b) (bank_matched st) (indexed bank_df) = Some si ->
  first_fit book_df bank_df (pairs (record_match st bi si k)).
Proof.
  intros (_ & _ & _ & Hsm) Hff Hb Hscan n p Hp b' s j Hb' Hs Hlt Ht.
  unfold record_match in *. cbn [pairs] in *.
  destruct (decide (n < length (pairs st))%nat) as [Hn|Hn].
  - rewrite lookup_app_l in Hp by exact Hn.
    destruct (Hff n p Hp b' s j Hb' Hs Hlt Ht) as (k' & q & Hk' & Hq & Hj).
    exists k', q. split; [exact Hk'|]. split; [|exact Hj].
    rewrite lookup_app_l by lia. exact Hq.
  - rewrite lookup_app_r in Hp by lia.
    destruct (n - length (pairs st))%nat as [|m] eqn:Hm; [|destruct m; discriminate].
    cbn in Hp. injection Hp as <-. cbn [book_idx bank_idx match_type] in *.
    rewrite Hb in Hb'. injection Hb' as <-.
    destruct (scan_first _ _ _ _ Hscan j s Hs Hlt) as [Hin|Hno]; [|congruence].
    apply Hsm in Hin. apply list_elem_of_fmap in Hin as [q [Hj Hq]].
    apply list_elem_of_lookup in Hq as [k' Hk'].
    exists k', q. split; [apply lookup_lt_Some in Hk'; lia|].
    split; [|symmetry; exact Hj].
    rewrite lookup_app_l by (eapply lookup_lt_Some, Hk'). exact Hk'.
Qed.

Lemma pass1_first_fit (book_df bank_df : list row) (l : frame) :
  NoDup l.*1 -> (forall e, e ∈ l -> e ∈ indexed book_df) ->
  first_fit book_df bank_df (pairs (foldl (pass1_step (indexed bank_df)) (MState [] ∅ ∅) l)).
Proof.
  induction l as [|e l IH] using rev_ind; intros Hnd Hsub.
  - intros k p Hp. destruct k; discriminate.
  - rewrite foldl_snoc.
    assert (Hnd' : NoDup l.*1).
    { rewrite fmap_app in Hnd. apply NoDup_app in Hnd. tauto. }
    assert (Hsub' : forall x, x ∈ l -> x ∈ indexed book_df).
    { intros x Hx. apply Hsub, elem_of_app. auto. }
    specialize (IH Hnd' Hsub').
    destruct (pass1_run (indexed bank_df) l Hnd') as (H11 & _).
    set (st := foldl (pass1_step (indexed bank_df)) (MState [] ∅ ∅) l) in *.
    destruct (pass1_step_cases (indexed bank_df) st e) as [[_ ->]|[si [Hscan ->]]];
      [exact IH|].
    apply (first_fit_record _ _ _ _ _ e.2 Exact); try assumption.
    apply indexed_elem, Hsub, elem_of_app. right. destruct e. left.
Qed.

Lemma pass2_first_fit (book_df bank_df : list row) (l : frame) (st0 : mstate) :
  (forall e, e ∈ l -> e ∈ indexed book_df) ->
  one_to_one st0 -> first_fit book_df bank_df (pairs st0) ->
  first_fit book_df bank_df (pairs (foldl (pass2_step (indexed bank_df)) st0 l)).
Proof.
  revert st0. induction l as [|e l IH]; intros st0 Hsub H11 Hff; [exact Hff|].
  cbn [foldl].
  assert (Hsub' : forall x, x ∈ l -> x ∈ indexed book_df).
  { intros x Hx. apply Hsub. right. exact Hx. }
  destruct (pass2_step_cases (indexed bank_df) st0 e)
    as [[_ ->]|[(_ & _ & ->)|(He & si & Hscan & ->)]]; try (apply IH; assumption).
  apply IH; [exact Hsub'| |].
  - apply scan_Some in Hscan as [Hsi _]. apply one_to_one_record; assumption.
  - apply (first_fit_record _ _ _ _ _ e.2 Probable); try assumption.
    apply indexed_elem, Hsub. destruct e. left.
Qed.

(** X5. Matching is first fit in statement order: when a statement row
    before the one a pair took passes the test of that pair against its
    ledger row, the earlier statement row is in a pair recorded before. *)
Theorem matching_is_first_fit (book_df bank_df : list row)
    (k : nat) (p : match_pair) (b s : row) (j : nat) :
  (match_transactions book_df bank_df).1.1 !! k = Some p ->
  book_df !! book_idx p = Some b -> bank_df !! j = Some s ->
  (j < bank_idx p)%nat ->
  kind_test (match_type p) b s = true ->
  exists k' q, (k' < k)%nat
    /\ (match_transactions book_df bank_df).1.1 !! k' = Some q
    /\ bank_idx q = j.
Proof.
  rewrite match_transactions_unfold. cbn [fst]. unfold final_state, pass2, pass1.
  intros Hp. revert k p Hp b s j.
  apply (pass2_first_fit book_df bank_df); [auto| |].
  - apply (pass1_run (indexed bank_df) (indexed book_df) (indexed_NoDup book_df)).
  - apply pass1_first_fit; [apply indexed_NoDup|auto].
Qed.

(** *** The order of the pairs *)

Lemma pass1_appends (bank l : frame) (st0 : mstate) :
  exists E, pairs (foldl (pass1_step bank) st0 l) = pairs st0 ++ E
    /\ Forall (fun p => match_type p = Exact) E
    /\ (book_idx <$> E) `sublist_of` l.*1.
Proof.
  revert st0. induction l as [|e l IH]; intros st0.
  - exists []. rewrite app_nil_r. repeat split; constructor.
  - cbn [foldl]. destruct (IH (pass1_step bank st0 e)) as (E & -> & HE & Hsub).
    destruct (pass1_step_cases bank st0 e) as [[_ ->]|[si [_ ->]]].
    + exists E. split; [reflexivity|]. split; [exact HE|].
      cbn. apply sublist_cons, Hsub.
    + exists (MatchPair e.1 si Exact :: E). unfold record_match. cbn [pairs].
      rewrite <- app_assoc. split; [reflexivity|].
      split; [constructor; [reflexivity|exact HE]|].
      cbn. apply sublist_skip, Hsub.
Qed.

Lemma pass2_appends (bank l : frame) (st0 : mstate) :
  exists P, pairs (foldl (pass2_step bank) st0 l) = pairs st0 ++ P
    /\ Forall (fun p => match_type p = Probable) P
    /\ (book_idx <$> P) `sublist_of` l.*1.
Proof.
  revert st0. induction l as [|e l IH]; intros st0.
  - exists []. rewrite app_nil_r. repeat split; constructor.
  - cbn [foldl]. destruct (IH (pass2_step bank st0 e)) as (P & -> & HP & Hsub).
    destruct (pass2_step_cases bank st0 e) as [[_ ->]|[(_ & _ & ->)|(_ & si & _ & ->)]].
    + exists P. split; [reflexivity|]. split; [exact HP|].
      cbn. apply sublist_cons, Hsub.
    + exists P. split; [reflexivity|]. split; [exact HP|].
      cbn. apply sublist_cons, Hsub.
    + exists (MatchPair e.1 si Probable :: P). unfold record_match. cbn [pairs].
      rewrite <- app_assoc. split; [reflexivity|].
      split; [constructor; [reflexivity|exact HP]|].
      cbn. apply sublist_skip, Hsub.
Qed.

(** X6. [matched_pairs] lists the Exact pairs first and the Probable
    pairs after them, each group in the order of the ledger rows. *)
Theorem exact_pairs_come_first (book_df bank_df : list row) :
  exists E P,
    (match_transactions book_df bank_df).1.1 = E ++ P
    /\ Forall (fun p => match_type p = Exact) E
    /\ Forall (fun p => match_type p = Probable) P
    /\ (book_idx <$> E) `sublist_of` seq 0 (length book_df)
    /\ (book_idx <$> P) `sublist_of` seq 0 (length book_df).
Proof.
  rewrite match_transactions_unfold. cbn [fst]. unfold final_state, pass2, pass1.
  destruct (pass1_appends (indexed bank_df) (indexed book_df) (MState [] ∅ ∅))
    as (E & HE & HEk & HEs).
  destruct (pass2_appends (indexed bank_df) (indexed book_df)
              (foldl (pass1_step (indexed bank_df)) (MState [] ∅ ∅) (indexed book_df)))
    as (P & HP & HPk & HPs).
  exists E, P. rewrite HP, HE. cbn [pairs app].
  rewrite indexed_labels in HEs, HPs. auto.
Qed.

(** *** Rows without an amount *)

Lemma round2_nan (x : float) : round2 x = NaN <-> x = NaN.
Proof. destruct x; cbn; split; congruence. Qed.

(** A row in a pair has an amount. *)
Lemma matched_rows_have_amounts (book_df bank_df : list row) (p : match_pair) :
  p ∈ pairs (final_state book_df bank_df) ->
  exists b s : row,
    book_df !! book_idx p = Some b /\ bank_df !! bank_idx p = Some s
    /\ _amount b <> NaN /\ _amount s <> NaN.
Proof.
  intros Hp. destruct (final_state_invariant book_df bank_df) as [_ Hsound].
  destruct (Hsound p Hp) as (b & s & Hb & Hs & Ht).
  apply indexed_elem in Hb, Hs. exists b, s. split; [exact Hb|]. split; [exact Hs|].
  assert (Hamt : feqb (round2 (_amount b)) (round2 (_amount s)) = true).
  { destruct (match_type p); cbn in Ht.
    - apply exact_test_spec in Ht. tauto.
    - apply probable_test_spec in Ht. tauto. }
  apply feqb_true in Hamt as [a [Ha Hb']].
  split; intros E; [rewrite E in Ha|rewrite E in Hb']; discriminate.
Qed.

Lemma classify_drops_nan (df : frame) (e : nat * row) :
  _amount e.2 = NaN ->
  (e ∉ (classify_book_only df).1) /\ (e ∉ (classify_book_only df).2)
  /\ (e ∉ (classify_bank_only df).1) /\ (e ∉ (classify_bank_only df).2).
Proof.
  intros Hnan. unfold classify_book_only, classify_bank_only. cbn [fst snd].
  repeat split; intros Hin; apply list_elem_of_In, filter_In in Hin as [_ Hin];
    rewrite Hnan in Hin; discriminate.
Qed.

(** X8. A row whose amount is NaN is never paired: it is left over, and
    the classifier of its side puts it in neither bucket, so it reaches no
    total and no sheet of the report. *)
Theorem rows_without_amount_drop_out (book_df bank_df : list row) (i : nat) (r : row) :
  _amount r = NaN ->
  let '(matched_pairs, book_only, bank_only) := match_transactions book_df bank_df in
  (book_df !! i = Some r ->
     (i, r) ∈ book_only
     /\ ((i, r) ∉ (classify_book_only book_only).1)
     /\ ((i, r) ∉ (classify_book_only book_only).2))
  /\ (bank_df !! i = Some r ->
     (i, r) ∈ bank_only
     /\ ((i, r) ∉ (classify_bank_only bank_only).1)
     /\ ((i, r) ∉ (classify_bank_only bank_only).2)).
Proof.
  intros Hnan. rewrite match_transactions_unfold.
  destruct (final_state_invariant book_df bank_df) as [(_ & _ & Hbm & Hsm) _].
  split; intros Hr.
  - split; [|split; apply (classify_drops_nan _ (i, r) Hnan)].
    apply unmatched_elem. split; [apply indexed_elem, Hr|]. cbn [fst].
    intros Hin. apply Hbm, list_elem_of_fmap in Hin as [p [-> Hp]].
    destruct (matched_rows_have_amounts _ _ p Hp) as (b & s & Hb & _ & Hne & _).
    congruence.
  - split; [|split; apply (classify_drops_nan _ (i, r) Hnan)].
    apply unmatched_elem. split; [apply indexed_elem, Hr|]. cbn [fst].
    intros Hin. apply Hsm, list_elem_of_fmap in Hin as [p [-> Hp]].
    destruct (matched_rows_have_amounts _ _ p Hp) as (b & s & _ & Hs & _ & Hne).
    congruence.
Qed.

(** ** More on the proposer and the adjusting entries *)

(** X9. [categorize_bank_item] posts one side of every suggestion to
    Cash at Bank, code 1020, and the other side to another account: the
    debit side for an amount above zero, the credit side for every other
    amount, zero and NaN included. *)
Theorem suggestion_posts_to_the_bank_account (description : cell) (amount : float) :
  let cat := categorize_bank_item description amount in
  (fgtb amount zero = true ->
     dr_account cat = "Cash at Bank"%string /\ dr_code cat = BANK_ACCOUNT_CODE
     /\ cr_code cat <> BANK_ACCOUNT_CODE)
  /\ (fgtb amount zero = false ->
     cr_account cat = "Cash at Bank"%string /\ cr_code cat = BANK_ACCOUNT_CODE
     /\ dr_code cat <> BANK_ACCOUNT_CODE).
Proof.
  cbn zeta. unfold categorize_bank_item.
  destruct (fgtb amount zero); split; intros H; try discriminate H;
    repeat match goal with
           | |- context [if ?b then _ else _] => destruct b
           end; cbn; repeat split; discriminate.
Qed.

Lemma entry_side (r : row) :
  (fgtb (_amount r) zero = true -> dr_code (entry_of_row r) = BANK_ACCOUNT_CODE)
  /\ (fgtb (_amount r) zero = false -> cr_code (entry_of_row r) = BANK_ACCOUNT_CODE).
Proof.
  unfold entry_of_row. cbn [entry]. unfold categorize_bank_item.
  destruct (fgtb (_amount r) zero); split; intros H; try discriminate H;
    repeat match goal with
           | |- context [if ?b then _ else _] => destruct b
           end; reflexivity.
Qed.

(** X10. [build_adjusting_entries] on the buckets of
    [classify_bank_only] makes one entry for each bank-only row of either
    sign and none for a row with a zero or NaN amount; the entries carry, in
    order, the date, reference and description of the credits and then of
    the debits; the entries of the credits debit the bank account and the
    entries of the debits credit it. *)
Theorem adjusting_entries_of_the_bank_only_rows (bank_only : frame) :
  let bank_credits := (classify_bank_only bank_only).1 in
  let bank_debits := (classify_bank_only bank_only).2 in
  let adjusting_entries := build_adjusting_entries bank_credits bank_debits in
  (length adjusting_entries + length (List.filter neither_sign bank_only))%nat
    = length bank_only
  /\ (fun e : adjusting_entry => (date e, reference e, description e)) <$> adjusting_entries
     = (fun r : nat * row => (Date r.2, Reference r.2, Description r.2))
         <$> (bank_credits ++ bank_debits)
  /\ exists E1 E2,
       adjusting_entries = E1 ++ E2
       /\ length E1 = length bank_credits /\ length E2 = length bank_debits
       /\ Forall (fun e : adjusting_entry => dr_code e = BANK_ACCOUNT_CODE) E1
       /\ Forall (fun e : adjusting_entry => cr_code e = BANK_ACCOUNT_CODE) E2.
Proof.
  cbn zeta. split; [|split].
  - unfold build_adjusting_entries. rewrite length_app, !length_fmap.
    destruct (classify_by_sign bank_only) as (_ & _ & _ & _ & Hperm).
    apply Permutation_length in Hperm. rewrite !length_app in Hperm.
    unfold classify_bank_only. cbn [fst snd]. lia.
  - unfold build_adjusting_entries. rewrite <- fmap_app, <- list_fmap_compose.
    apply list_fmap_ext. intros i r _. reflexivity.
  - eexists _, _. split; [reflexivity|]. rewrite !length_fmap.
    split; [reflexivity|]. split; [reflexivity|].
    unfold classify_bank_only. cbn [fst snd]. split.
    + apply Forall_fmap, Forall_forall. intros r Hr.
      apply list_elem_of_In, filter_In in Hr as [_ Hr]. apply entry_side, Hr.
    + apply Forall_fmap, Forall_forall. intros r Hr.
      apply list_elem_of_In, filter_In in Hr as [_ Hr]. apply entry_side.
      destruct (fgtb (_amount r.2) zero) eqn:E; [|reflexivity].
      destruct (fgtb_fltb_zero _ E Hr).
Qed.

(** ** More on the reconciliation totals *)






(** ** More on the period loader *)

Lemma inverted_period_is_empty (df : list drow) (period_start period_end : Z) :
  period_end < period_start -> filter_by_period df period_start period_end = [].
Proof.
  intros Hlt. apply filter_none. intros r _.
  destruct (Date r) as [t|]; [|reflexivity]. cbn.
  apply andb_false_iff. rewrite Z.leb_gt, Z.leb_gt. lia.
Qed.

(** X14. With [period_end] before [period_start] both loaders return no
    period rows. *)
Theorem inverted_period_has_no_rows
    (ledger : list ledger_cells) (statement : list statement_cells)
    (period_start period_end : Z) :
  period_end < period_start ->
  (exists opening_balance closing_balance,
     load_cash_ledger (Data ledger) period_start period_end
     = inr ([], opening_balance, closing_balance))
  /\ (exists opening_balance closing_balance,
     load_bank_statement (Data statement) period_start period_end
     = inr ([], opening_balance, closing_balance)).
Proof.
  intros Hlt. split; eexists _, _.
  - unfold load_cash_ledger. rewrite (inverted_period_is_empty _ _ _ Hlt). reflexivity.
  - unfold load_bank_statement. rewrite (inverted_period_is_empty _ _ _ Hlt). reflexivity.
Qed.

Lemma statement_coerce_finite (x : statement_cells) :
  is_Some (sDebit x) -> is_Some (sCredit x) ->
  Debit (statement_coerce x) <> NaN /\ Credit (statement_coerce x) <> NaN
  /\ fsub (Credit (statement_coerce x)) (Debit (statement_coerce x)) <> NaN.
Proof.
  intros [d Hd] [c Hc]. cbn. rewrite Hd, Hc. cbn.
  destruct (to_numeric d), (to_numeric c); cbn; repeat split; discriminate.
Qed.

(** X15. Every period row of the ledger has numbers for [Debit],
    [Credit] and [_amount], which is [Debit - Credit]; so has every period
    row of a statement sheet with both the [Debit] and the [Credit] column,
    where [_amount] is [Credit - Debit]. *)
Theorem period_amounts_are_numbers
    (ledger : list ledger_cells) (statement : list statement_cells)
    (period_start period_end : Z) :
  Forall (fun r : row =>
            Debit r <> NaN /\ Credit r <> NaN
            /\ _amount r = fsub (Debit r) (Credit r) /\ _amount r <> NaN)
    (period_rows (load_cash_ledger (Data ledger) period_start period_end))
  /\ (Forall (fun x => is_Some (sDebit x) /\ is_Some (sCredit x)) statement ->
      Forall (fun r : row =>
                Debit r <> NaN /\ Credit r <> NaN
                /\ _amount r = fsub (Credit r) (Debit r) /\ _amount r <> NaN)
        (period_rows (load_bank_statement (Data statement) period_start period_end))).
Proof.
  split.
  - unfold load_cash_ledger, filter_by_period. cbn [period_rows].
    apply Forall_fmap, Forall_forall. intros d Hd. cbn.
    apply list_elem_of_In, filter_In in Hd as [Hd _].
    apply filter_In in Hd as [Hd _]. apply list_elem_of_In, list_elem_of_fmap in Hd as [x [-> _]].
    destruct (ledger_coerce_finite x) as (H1 & H2 & H3). auto.
  - intros Hcols. unfold load_bank_statement, filter_by_period. cbn [period_rows].
    apply Forall_fmap, Forall_forall. intros d Hd. cbn.
    apply list_elem_of_In, filter_In in Hd as [Hd _].
    apply filter_In in Hd as [Hd _]. apply list_elem_of_In, list_elem_of_fmap in Hd as [x [-> Hx]].
    rewrite Forall_forall in Hcols. destruct (Hcols x Hx) as [Hdb Hcr].
    destruct (statement_coerce_finite x Hdb Hcr) as (H1 & H2 & H3). auto.
Qed.

Lemma filter_ext_elem {A : Type} (f g : A -> bool) (l : list A) :
  (forall x, x ∈ l -> f x = g x) -> List.filter f l = List.filter g l.
Proof.
  intros H. apply filter_ext_in. intros x Hx. apply H, list_elem_of_In, Hx.
Qed.

(** The opening balance for a start that no row separates from the end of
    an earlier period is the closing balance of that period. *)
Lemma opening_after_closing (df : list drow)
    (period_start period_end next_start : Z) :
  period_start <= next_start ->
  (forall r, r ∈ df -> date_leb (Date r) period_end = date_ltb (Date r) next_start) ->
  match last (List.filter (fun r => date_ltb (Date r) next_start) df) with
  | None => zero
  | Some r => Balance r
  end
  = match last (List.filter (fun r => date_leb (Date r) period_end) df) with
    | Some r => Balance r
    | None =>
        match last (List.filter (fun r => date_ltb (Date r) period_start) df) with
        | None => zero
        | Some r => Balance r
        end
    end.
Proof.
  intros Hle Hsame.
  assert (Heq : List.filter (fun r : drow => date_ltb (Date r) next_start) df
                = List.filter (fun r : drow => date_leb (Date r) period_end) df).
  { apply filter_ext_elem. intros r Hr. symmetry. apply Hsame, Hr. }
  rewrite Heq.
  destruct (last (List.filter (fun r : drow => date_leb (Date r) period_end) df))
    as [r|] eqn:Hlast; [reflexivity|].
  apply last_None in Hlast.
  rewrite filter_none; [reflexivity|]. intros r Hr.
  destruct (date_ltb (Date r) period_start) eqn:Hlt; [|reflexivity].
  assert (Hin : In r (List.filter (fun r : drow => date_leb (Date r) period_end) df)).
  { rewrite <- Heq. apply filter_In. split; [apply list_elem_of_In, Hr|].
    destruct (Date r) as [t|]; [|discriminate]. cbn in *.
    apply Z.ltb_lt in Hlt. apply Z.ltb_lt. lia. }
  rewrite Hlast in Hin. destruct Hin.
Qed.

(** X16. The closing balance of a period is the opening balance of a
    later period, when no row of the sheet is dated after the end of the
    first and before the start of the second. *)
Theorem closing_is_the_next_opening
    (ledger : list ledger_cells) (statement : list statement_cells)
    (period_start period_end next_start next_end : Z) :
  period_start <= next_start ->
  Forall (fun x => date_leb (to_datetime (lDate x)) period_end
                   = date_ltb (to_datetime (lDate x)) next_start) ledger ->
  Forall (fun x => date_leb (to_datetime (sDate x)) period_end
                   = date_ltb (to_datetime (sDate x)) next_start) statement ->
  (exists df opening_balance closing_balance df' closing_balance',
     load_cash_ledger (Data ledger) period_start period_end
       = inr (df, opening_balance, closing_balance)
     /\ load_cash_ledger (Data ledger) next_start next_end
       = inr (df', closing_balance, closing_balance'))
  /\ (exists df opening_balance closing_balance df' closing_balance',
     load_bank_statement (Data statement) period_start period_end
       = inr (df, opening_balance, closing_balance)
     /\ load_bank_statement (Data statement) next_start next_end
       = inr (df', closing_balance, closing_balance')).
Proof.
  intros Hle Hl Hs. rewrite Forall_forall in Hl. rewrite Forall_forall in Hs. split.
  - eexists _, _, _, _, _. split; [reflexivity|].
    unfold load_cash_ledger. cbv zeta.
    rewrite (opening_after_closing (ledger_coerce <$> ledger)
               period_start period_end next_start Hle); [reflexivity|].
    intros r Hr. apply list_elem_of_fmap in Hr as [x [-> Hx]]. apply (Hl x Hx).
  - eexists _, _, _, _, _. split; [reflexivity|].
    unfold load_bank_statement. cbv zeta.
    rewrite (opening_after_closing (statement_coerce <$> statement)
               period_start period_end next_start Hle); [reflexivity|].
    intros r Hr. apply list_elem_of_fmap in Hr as [x [-> Hx]]. apply (Hs x Hx).
Qed.

(** ** Column mapping *)

Lemma normalized_headers_Some (columns : list string) (k h : string) :
  normalized_headers columns !! k = Some h -> h ∈ columns /\ normalize_column h = k.
Proof.
  unfold normalized_headers. induction columns as [|c cols IH] using rev_ind.
  - cbn. rewrite lookup_empty. discriminate.
  - rewrite foldl_snoc, lookup_insert. destruct (decide (normalize_column c = k)) as [E|E].
    + intros [= <-]. split; [apply elem_of_app; right; left|exact E].
    + intros H. destruct (IH H) as [H1 H2]. split; [apply elem_of_app; auto|exact H2].
Qed.

Lemma normalized_headers_None (columns : list string) (k : string) :
  normalized_headers columns !! k = None <->
  forall h, h ∈ columns -> normalize_column h <> k.
Proof.
  unfold normalized_headers. induction columns as [|c cols IH] using rev_ind.
  - cbn. rewrite lookup_empty. split; [intros _ h Hh; inversion Hh|reflexivity].
  - rewrite foldl_snoc, lookup_insert. destruct (decide (normalize_column c = k)) as [E|E].
    + split; [discriminate|]. intros H. destruct (H c); [apply elem_of_app; right; left|exact E].
    + rewrite IH. split.
      * intros H h Hh. apply elem_of_app in Hh as [Hh|Hh]; [apply H, Hh|].
        apply list_elem_of_singleton in Hh as ->. exact E.
      * intros H h Hh. apply H, elem_of_app. auto.
Qed.

Lemma first_alias_Some (nh : gmap string string) (aliases : list string) (h : string) :
  first_alias nh aliases = Some h -> exists a, a ∈ aliases /\ nh !! a = Some h.
Proof.
  induction aliases as [|a rest IH]; [discriminate|]. cbn.
  destruct (nh !! a) as [h'|] eqn:E.
  - intros [= <-]. exists a. split; [left|exact E].
  - intros H. destruct (IH H) as (a' & Ha' & Hh). exists a'. split; [right; exact Ha'|exact Hh].
Qed.

Lemma first_alias_None (nh : gmap string string) (aliases : list string) :
  first_alias nh aliases = None <-> forall a, a ∈ aliases -> nh !! a = None.
Proof.
  induction aliases as [|a rest IH]; cbn.
  - split; [intros _ a Ha; inversion Ha|reflexivity].
  - destruct (nh !! a) as [h'|] eqn:E.
    + split; [discriminate|]. intros H. rewrite (H a) in E by left. discriminate.
    + rewrite IH. split.
      * intros H a' Ha'. apply elem_of_cons in Ha' as [->|Ha']; [exact E|apply H, Ha'].
      * intros H a' Ha'. apply H. right. exact Ha'.
Qed.

(** What the search finds is a header of the sheet, whose normal form is
    the lower-cased name when some header has that form, and else one of
    its aliases. *)
Lemma find_header_Some (columns : list string) (canonical h : string) :
  find_header (normalized_headers columns) canonical = Some h ->
  h ∈ columns
  /\ (normalize_column h = lower canonical
      \/ ((forall h', h' ∈ columns -> normalize_column h' <> lower canonical)
          /\ normalize_column h ∈ default [] (COLUMN_ALIASES !! lower canonical))).
Proof.
  unfold find_header. destruct (normalized_headers columns !! lower canonical) as [h'|] eqn:E.
  - intros [= <-]. apply normalized_headers_Some in E as [H1 H2]. auto.
  - intros H. apply first_alias_Some in H as (a & Ha & Hh).
    apply normalized_headers_Some in Hh as [H1 H2]. split; [exact H1|]. right.
    split; [apply normalized_headers_None, E|]. rewrite H2. exact Ha.
Qed.

(** The search fails exactly when no header has one of the candidate
    normal forms. *)
Lemma find_header_None (columns : list string) (canonical : string) :
  find_header (normalized_headers columns) canonical = None <->
  forall h, h ∈ columns -> normalize_column h ∉ candidates canonical.
Proof.
  unfold find_header, candidates.
  destruct (normalized_headers columns !! lower canonical) as [h'|] eqn:E.
  - split; [discriminate|]. intros H.
    apply normalized_headers_Some in E as [H1 H2]. destruct (H h' H1). rewrite H2. left.
  - rewrite first_alias_None. rewrite normalized_headers_None in E. split.
    + intros H h Hh Hin. apply elem_of_cons in Hin as [Hin|Hin]; [exact (E h Hh Hin)|].
      specialize (H _ Hin). rewrite normalized_headers_None in H. exact (H h Hh eq_refl).
    + intros H a Ha. apply normalized_headers_None. intros h Hh Hn.
      apply (H h Hh). right. rewrite Hn. exact Ha.
Qed.

Lemma dict_get_set (k k' v : string) (d : dict) :
  dict_get k (dict_set k' v d) = if bool_decide (k = k') then Some v else dict_get k d.
Proof.
  induction d as [|[k0 v0] d IH]; cbn.
  - reflexivity.
  - destruct (bool_decide (k' = k0)) eqn:E0; cbn.
    + apply bool_decide_eq_true in E0 as <-. destruct (bool_decide (k = k')); reflexivity.
    + rewrite IH. destruct (bool_decide (k = k0)) eqn:E1; [|reflexivity].
      apply bool_decide_eq_true in E1 as ->. apply bool_decide_eq_false in E0.
      rewrite bool_decide_eq_false_2 by congruence. reflexivity.
Qed.

Lemma dict_set_keys (k v : string) (d : dict) :
  NoDup d.*1 -> NoDup (dict_set k v d).*1
  /\ forall x, x ∈ (dict_set k v d).*1 <-> x = k \/ x ∈ d.*1.
Proof.
  induction d as [|[k0 v0] d IH]; intros Hnd; cbn.
  - split; [apply NoDup_singleton|]. intros x. rewrite list_elem_of_singleton, elem_of_nil. tauto.
  - cbn in Hnd. apply NoDup_cons in Hnd as [Hk0 Hnd]. destruct (IH Hnd) as [IH1 IH2].
    destruct (bool_decide (k = k0)) eqn:E; cbn.
    + apply bool_decide_eq_true in E as ->. split; [apply NoDup_cons; auto|].
      intros x. rewrite elem_of_cons. tauto.
    + apply bool_decide_eq_false in E. split.
      * apply NoDup_cons. split; [|exact IH1]. rewrite IH2. intros [H|H]; congruence.
      * intros x. rewrite !elem_of_cons, IH2. tauto.
Qed.

Lemma dict_get_elem (d : dict) (k v : string) :
  NoDup d.*1 -> (dict_get k d = Some v <-> (k, v) ∈ d).
Proof.
  induction d as [|[k0 v0] d IH]; intros Hnd; cbn.
  - rewrite elem_of_nil. split; [discriminate|tauto].
  - cbn in Hnd. apply NoDup_cons in Hnd as [Hk0 Hnd].
    rewrite elem_of_cons. destruct (bool_decide (k = k0)) eqn:E.
    + apply bool_decide_eq_true in E as ->. split.
      * intros [= ->]. left. reflexivity.
      * intros [[= ->]|Hin]; [reflexivity|].
        destruct Hk0. apply list_elem_of_fmap. exists (k0, v). auto.
    + apply bool_decide_eq_false in E. rewrite (IH Hnd). split; [auto|].
      intros [[= -> _]|Hin]; [congruence|exact Hin].
Qed.

(** The state of the loop after the names [l]: the keys of [mapping] are the
    names of [l] for which a header was found, each with that header, and
    [missing_required] lists the required names of [l] for which none
    was. *)
Lemma map_loop (nh : gmap string string) (required_columns l : list string) :
  let st := foldl (map_step nh required_columns) ([], []) l in
  NoDup st.1.*1
  /\ (forall c h, dict_get c st.1 = Some h <-> c ∈ l /\ find_header nh c = Some h)
  /\ (forall c, c ∈ st.2 <-> c ∈ l /\ c ∈ required_columns /\ find_header nh c = None).
Proof.
  induction l as [|x l IH] using rev_ind; cbn zeta.
  - cbn. split; [constructor|]. split.
    + intros c h. rewrite elem_of_nil. split; [discriminate|tauto].
    + intros c. rewrite !elem_of_nil. tauto.
  - rewrite foldl_snoc. cbn zeta in IH.
    destruct (foldl (map_step nh required_columns) ([], []) l) as [mapping missing].
    cbn [fst snd] in IH. destruct IH as (Hnd & Hmap & Hmiss).
    unfold map_step. cbn [fst snd]. destruct (find_header nh x) as [h|] eqn:Hx; cbn [fst snd].
    + destruct (dict_set_keys x h mapping Hnd) as [Hnd' _].
      split; [exact Hnd'|]. split.
      * intros c h'. rewrite dict_get_set, elem_of_app, list_elem_of_singleton.
        destruct (bool_decide (c = x)) eqn:E.
        -- apply bool_decide_eq_true in E as ->. rewrite Hx. split; [intros [= ->]; auto|].
           intros [_ [= ->]]. reflexivity.
        -- apply bool_decide_eq_false in E. rewrite Hmap. tauto.
      * intros c. rewrite Hmiss, elem_of_app, list_elem_of_singleton. split; [tauto|].
        intros [[H| ->] [H1 H2]]; [auto|congruence].
    + destruct (bool_decide (x ∈ required_columns)) eqn:Hreq; cbn [fst snd].
      * apply bool_decide_eq_true in Hreq.
        split; [exact Hnd|]. split.
        -- intros c h'. rewrite Hmap, elem_of_app, list_elem_of_singleton. split; [tauto|].
           intros [[H| ->] H1]; [auto|congruence].
        -- intros c. rewrite !elem_of_app, !list_elem_of_singleton, Hmiss. split.
           ++ intros [H| ->]; tauto.
           ++ intros [[H| ->] [H1 H2]]; auto.
      * apply bool_decide_eq_false in Hreq.
        split; [exact Hnd|]. split.
        -- intros c h'. rewrite Hmap, elem_of_app, list_elem_of_singleton. split; [tauto|].
           intros [[H| ->] H1]; [auto|congruence].
        -- intros c. rewrite Hmiss, elem_of_app, list_elem_of_singleton. split; [tauto|].
           intros [[H| ->] [H1 H2]]; [auto|contradiction].
Qed.

(** X17. [map_columns] reports as missing exactly the required names
    for which no header of the sheet has, stripped and lower-cased, the
    lower-cased name or one of its aliases; it returns no frame exactly when
    some required name is missing. *)
Theorem map_columns_reports_the_missing_columns
    (columns required_columns optional_columns : list string) :
  let '(mapped_df, missing_required, mapping) :=
    map_columns columns required_columns optional_columns in
  (forall c, c ∈ missing_required <->
     c ∈ required_columns
     /\ forall h, h ∈ columns -> normalize_column h ∉ candidates c)
  /\ (mapped_df = None <-> missing_required <> [])
  /\ (mapped_df = None <->
      exists c, c ∈ required_columns
                /\ forall h, h ∈ columns -> normalize_column h ∉ candidates c).
Proof.
  unfold map_columns. cbv zeta.
  pose proof (map_loop (normalized_headers columns) required_columns
                (required_columns ++ optional_columns)) as H. cbn zeta in H.
  destruct (foldl _ _ _) as [mapping missing]. cbn [fst snd] in H.
  destruct H as (_ & _ & Hmiss).
  assert (Hchar : forall c, c ∈ missing <->
            c ∈ required_columns
            /\ forall h, h ∈ columns -> normalize_column h ∉ candidates c).
  { intros c. rewrite Hmiss, find_header_None, elem_of_app. tauto. }
  destruct missing as [|m missing].
  - split; [exact Hchar|]. split; [split; [discriminate|congruence]|].
    split; [discriminate|]. intros [c Hc]. apply Hchar in Hc. inversion Hc.
  - split; [exact Hchar|]. split; [split; [discriminate|reflexivity]|].
    split; [|reflexivity]. intros _. exists m. apply Hchar. left.
Qed.

(** X18. The mapping of [map_columns] has each name once; its names are
    the names asked for that some header can stand for; the header it gives
    for a name is a header of the sheet, and it is an alias match only when no
    header has the lower-cased name itself. *)
Theorem map_columns_prefers_the_direct_match
    (columns required_columns optional_columns : list string) :
  let '(mapped_df, missing_required, mapping) :=
    map_columns columns required_columns optional_columns in
  NoDup mapping.*1
  /\ (forall c, is_Some (dict_get c mapping) <->
        c ∈ required_columns ++ optional_columns
        /\ exists h, h ∈ columns /\ normalize_column h ∈ candidates c)
  /\ (forall c h, dict_get c mapping = Some h ->
        h ∈ columns
        /\ (normalize_column h = lower c
            \/ ((forall h', h' ∈ columns -> normalize_column h' <> lower c)
                /\ normalize_column h ∈ default [] (COLUMN_ALIASES !! lower c)))).
Proof.
  unfold map_columns. cbv zeta.
  pose proof (map_loop (normalized_headers columns) required_columns
                (required_columns ++ optional_columns)) as H. cbn zeta in H.
  destruct (foldl _ _ _) as [mapping missing]. cbn [fst snd] in H.
  destruct H as (Hnd & Hmap & _).
  assert (Hgoal : NoDup mapping.*1
    /\ (forall c, is_Some (dict_get c mapping) <->
        c ∈ required_columns ++ optional_columns
        /\ exists h, h ∈ columns /\ normalize_column h ∈ candidates c)
    /\ (forall c h, dict_get c mapping = Some h ->
        h ∈ columns
        /\ (normalize_column h = lower c
            \/ ((forall h', h' ∈ columns -> normalize_column h' <> lower c)
                /\ normalize_column h ∈ default [] (COLUMN_ALIASES !! lower c))))).
  { split; [exact Hnd|]. split.
    - intros c. split.
      + intros [h Hh]. apply Hmap in Hh as [Hin Hf]. split; [exact Hin|].
        destruct (find_header_Some _ _ _ Hf) as [Hcol [Hd|[_ Ha]]];
          exists h; (split; [exact Hcol|]); unfold candidates;
          [rewrite Hd; left|right; exact Ha].
      + intros [Hin [h [Hcol Hcand]]].
        destruct (find_header (normalized_headers columns) c) as [h'|] eqn:Hf.
        * exists h'. apply Hmap. auto.
        * rewrite find_header_None in Hf. destruct (Hf h Hcol Hcand).
    - intros c h Hh. apply Hmap in Hh as [_ Hf]. apply find_header_Some, Hf. }
  destruct missing; exact Hgoal.
Qed.

Lemma candidates_disjoint_spec (l : list string) (c1 c2 a : string) :
  candidates_disjoint l = true ->
  c1 ∈ l -> c2 ∈ l -> a ∈ candidates c1 -> a ∈ candidates c2 -> c1 = c2.
Proof.
  unfold candidates_disjoint. rewrite forallb_forall. intros H H1 H2 Ha1 Ha2.
  specialize (H c1 ltac:(apply list_elem_of_In, H1)). rewrite forallb_forall in H.
  specialize (H c2 ltac:(apply list_elem_of_In, H2)).
  apply orb_true_iff in H as [H|H]; [apply bool_decide_eq_true in H; exact H|].
  rewrite forallb_forall in H. specialize (H a ltac:(apply list_elem_of_In, Ha1)).
  apply negb_true_iff, bool_decide_eq_false in H. contradiction.
Qed.

Lemma reverse_map_of_injective (d : dict) (c h : string) :
  (forall c1 c2 h', (c1, h') ∈ d -> (c2, h') ∈ d -> c1 = c2) ->
  (c, h) ∈ d -> reverse_map d !! h = Some c.
Proof.
  unfold reverse_map. induction d as [|[k v] d IH] using rev_ind; intros Hinj Hin.
  - inversion Hin.
  - rewrite foldl_snoc. cbn [fst snd]. rewrite lookup_insert.
    destruct (decide (v = h)) as [->|Hne].
    + f_equal. apply (Hinj k c h); [apply elem_of_app; right; left|exact Hin].
    + apply IH.
      * intros c1 c2 h' H1 H2. apply (Hinj c1 c2 h'); apply elem_of_app; auto.
      * apply elem_of_app in Hin as [Hin|Hin]; [exact Hin|].
        apply list_elem_of_singleton in Hin. congruence.
Qed.

(** When the names asked for have disjoint candidates, every name that found
    a header is a label of the renamed frame. *)
Lemma renamed_columns (columns required_columns optional_columns : list string)
    (mapped_df missing_required : list string) (mapping : dict) (c : string) :
  candidates_disjoint (required_columns ++ optional_columns) = true ->
  map_columns columns required_columns optional_columns
    = (Some mapped_df, missing_required, mapping) ->
  (c ∈ required_columns -> c ∈ mapped_df)
  /\ (is_Some (dict_get c mapping) -> c ∈ mapped_df)
  /\ length mapped_df = length columns.
Proof.
  intros Hdis. unfold map_columns. cbv zeta.
  pose proof (map_loop (normalized_headers columns) required_columns
                (required_columns ++ optional_columns)) as H. cbn zeta in H.
  destruct (foldl _ _ _) as [mapping' missing]. cbn [fst snd] in H.
  destruct H as (Hnd & Hmap & Hmiss).
  destruct missing as [|m missing]; [|discriminate]. intros [= <- _ <-].
  assert (Hkey : is_Some (dict_get c mapping') -> c ∈ rename columns (reverse_map mapping')).
  { intros [h Hh]. pose proof Hh as Hfound. apply Hmap in Hfound as [Hneeded Hf].
    destruct (find_header_Some _ _ _ Hf) as [Hcol Hform].
    assert (Hrm : reverse_map mapping' !! h = Some c).
    { apply reverse_map_of_injective; [|apply dict_get_elem; assumption].
      intros c1 c2 h' H1 H2. apply dict_get_elem in H1, H2; try assumption.
      apply Hmap in H1 as [Hn1 Hf1], H2 as [Hn2 Hf2].
      apply (candidates_disjoint_spec _ c1 c2 (normalize_column h') Hdis Hn1 Hn2).
      - destruct (find_header_Some _ _ _ Hf1) as [_ [E|[_ E]]]; unfold candidates;
          [rewrite E; left|right; exact E].
      - destruct (find_header_Some _ _ _ Hf2) as [_ [E|[_ E]]]; unfold candidates;
          [rewrite E; left|right; exact E]. }
    unfold rename. apply list_elem_of_fmap. exists h. rewrite Hrm. auto. }
  split; [|split; [exact Hkey|apply length_fmap]].
  intros Hreq. apply Hkey.
  destruct (find_header (normalized_headers columns) c) as [h|] eqn:Hf.
  - exists h. apply Hmap. split; [apply elem_of_app; auto|exact Hf].
  - assert (Hin : c ∈ @nil string); [|inversion Hin].
    apply Hmiss. split; [apply elem_of_app; auto|auto].
Qed.

Lemma ledger_candidates_disjoint :
  candidates_disjoint (ledger_required ++ ledger_optional) = true.
Proof. vm_compute. reflexivity. Qed.

Lemma statement_candidates_disjoint :
  candidates_disjoint (statement_required ++ statement_optional) = true.
Proof. vm_compute. reflexivity. Qed.

(** X19. A frame [map_columns] returns for the columns
    [load_cash_ledger] or [load_bank_statement] ask for has as many labels as
    the sheet and every required name among them: the names asked for share
    no alias, so renaming loses none.  Each optional statement column is among
    the labels or is on the sheet under none of its names. *)
Theorem loaded_sheets_have_the_required_columns
    (columns mapped_df missing_required : list string) (mapping : dict) :
  (map_columns columns ledger_required ledger_optional
     = (Some mapped_df, missing_required, mapping) ->
   Forall (fun c => c ∈ mapped_df) ledger_required
   /\ length mapped_df = length columns)
  /\ (map_columns columns statement_required statement_optional
     = (Some mapped_df, missing_required, mapping) ->
   Forall (fun c => c ∈ mapped_df) statement_required
   /\ (forall c, c ∈ statement_optional ->
         c ∈ mapped_df \/ forall h, h ∈ columns -> normalize_column h ∉ candidates c)
   /\ length mapped_df = length columns).
Proof.
  split; intros Hmap.
  - split.
    + apply Forall_forall. intros c Hc.
      exact (proj1 (renamed_columns _ _ _ _ _ _ c ledger_candidates_disjoint Hmap) Hc).
    + exact (proj2 (proj2 (renamed_columns _ _ _ _ _ _ EmptyString
                             ledger_candidates_disjoint Hmap))).
  - split; [|split].
    + apply Forall_forall. intros c Hc.
      exact (proj1 (renamed_columns _ _ _ _ _ _ c statement_candidates_disjoint Hmap) Hc).
    + intros c Hc.
      destruct (renamed_columns _ _ _ _ _ _ c statement_candidates_disjoint Hmap)
        as (_ & Hkey & _).
      pose proof (map_loop (normalized_headers columns) statement_required
                    (statement_required ++ statement_optional)) as H. cbn zeta in H.
      unfold map_columns in Hmap. cbv zeta in Hmap.
      destruct (foldl _ _ _) as [mapping' missing]. cbn [fst snd] in H.
      destruct H as (_ & Hm & _).
      destruct missing; [|discriminate]. injection Hmap as _ _ <-.
      destruct (find_header (normalized_headers columns) c) as [h|] eqn:Hf.
      * left. apply Hkey. exists h. apply Hm. split; [apply elem_of_app; auto|exact Hf].
      * right. apply find_header_None, Hf.
    + exact (proj2 (proj2 (renamed_columns _ _ _ _ _ _ EmptyString
                             statement_candidates_disjoint Hmap))).
Qed.

(** Of the headers with one normal form the dict comprehension keeps the
    last. *)
Lemma normalized_headers_last (before after : list string) (h : string) :
  (forall h', h' ∈ after -> normalize_column h' <> normalize_column h) ->
  normalized_headers (before ++ h :: after) !! normalize_column h = Some h.
Proof.
  unfold normalized_headers. induction after as [|x after IH] using rev_ind; intros Hafter.
  - rewrite foldl_snoc, lookup_insert. rewrite decide_True by reflexivity. reflexivity.
  - replace (before ++ h :: after ++ [x]) with ((before ++ h :: after) ++ [x])
      by (rewrite <- app_assoc; reflexivity).
    rewrite foldl_snoc, lookup_insert.
    rewrite decide_False by (apply Hafter, elem_of_app; right; left).
    apply IH.
    intros h' Hh'. apply Hafter, elem_of_app. auto.
Qed.

(** X22. When several headers of a sheet have the normal form of a name
    asked for, [map_columns] maps the name to the last of them. *)
Theorem map_columns_takes_the_last_header
    (before after required_columns optional_columns : list string) (h c : string) :
  c ∈ required_columns ++ optional_columns ->
  normalize_column h = lower c ->
  (forall h', h' ∈ after -> normalize_column h' <> lower c) ->
  dict_get c (map_columns (before ++ h :: after) required_columns optional_columns).2
  = Some h.
Proof.
  intros Hc Hh Hafter. unfold map_columns. cbv zeta.
  pose proof (map_loop (normalized_headers (before ++ h :: after)) required_columns
                (required_columns ++ optional_columns)) as H. cbn zeta in H.
  destruct (foldl _ _ _) as [mapping missing]. cbn [fst snd] in H.
  destruct H as (_ & Hmap & _).
  assert (Hget : dict_get c mapping = Some h).
  { apply Hmap. split; [exact Hc|]. unfold find_header.
    rewrite <- Hh, normalized_headers_last; [reflexivity|].
    intros h' Hh'. rewrite Hh. apply Hafter, Hh'. }
  destruct missing; exact Hget.
Qed.

(** ** Instances of the further properties *)

Lemma matching_is_first_fit_witness :
  exists k' q, (k' < 1)%nat
    /\ (match_transactions [cheque_a; cheque_b] [cheque_cleared; cheque_cleared]).1.1 !! k'
       = Some q
    /\ bank_idx q = 0%nat.
Proof.
  apply (matching_is_first_fit [cheque_a; cheque_b] [cheque_cleared; cheque_cleared]
           1 (MatchPair 1 1 Exact) cheque_b cheque_cleared 0).
  - vm_compute. reflexivity.
  - reflexivity.
  - reflexivity.
  - apply Nat.lt_0_1.
  - vm_compute. reflexivity.
Defined.

Lemma rows_without_amount_drop_out_witness :
  (0%nat, interest_31st) ∈ (match_transactions [deposit_30th] [interest_31st]).2
  /\ ((0%nat, interest_31st)
        ∉ (classify_bank_only (match_transactions [deposit_30th] [interest_31st]).2).1)
  /\ ((0%nat, interest_31st)
        ∉ (classify_bank_only (match_transactions [deposit_30th] [interest_31st]).2).2).
Proof.
  pose proof (rows_without_amount_drop_out [deposit_30th] [interest_31st] 0 interest_31st
                eq_refl) as H.
  rewrite match_transactions_unfold in *. cbn [snd] in *.
  exact (proj2 H eq_refl).
Defined.

Lemma inverted_period_has_no_rows_witness :
  exists opening_balance closing_balance,
    load_cash_ledger (Data ledger_february) jan_end jan_start
    = inr ([], opening_balance, closing_balance).
Proof.
  apply (proj1 (inverted_period_has_no_rows ledger_february [] jan_end jan_start eq_refl)).
Defined.

Lemma closing_is_the_next_opening_witness :
  exists df opening_balance closing_balance df' closing_balance',
    load_cash_ledger (Data ledger_february) (day 20485) (day 20512)
      = inr (df, opening_balance, closing_balance)
    /\ load_cash_ledger (Data ledger_february) (day 20513) (day 20543)
      = inr (df', closing_balance, closing_balance').
Proof.
  apply (closing_is_the_next_opening ledger_february []
           (day 20485) (day 20512) (day 20513) (day 20543)).
  - discriminate.
  - constructor; [reflexivity|constructor].
  - constructor.
Defined.

Lemma loaded_sheets_have_the_required_columns_witness :
  Forall (fun c => c ∈ ["Date"; "Reference"; "Description"; "Debit"; "Credit"; "Balance";
                         "Branch"]%string) ledger_required
  /\ length ["Date"; "Reference"; "Description"; "Debit"; "Credit"; "Balance";
             "Branch"]%string = length ledger_headers.
Proof.
  apply (proj1 (loaded_sheets_have_the_required_columns ledger_headers
                  ["Date"; "Reference"; "Description"; "Debit"; "Credit"; "Balance";
                   "Branch"]%string
                  []
                  [("Date", " Date"); ("Reference", "Ref"); ("Description", "Narration");
                   ("Debit", "DR"); ("Credit", "CR"); ("Balance", "Bal")]%string)).
  vm_compute. reflexivity.
Defined.

Lemma map_columns_takes_the_last_header_witness :
  dict_get "Date"
    (map_columns (["date"] ++ "Date " :: ["Ref"; "Balance"]) statement_required
       statement_optional).2
  = Some "Date "%string.
Proof.
  apply (map_columns_takes_the_last_header ["date"%string] ["Ref"; "Balance"]%string
           statement_required statement_optional "Date " "Date").
  - left.
  - vm_compute. reflexivity.
  - intros h' Hh'. apply elem_of_cons in Hh' as [->|Hh']; [vm_compute; discriminate|].
    apply list_elem_of_singleton in Hh' as ->. vm_compute. discriminate.
Defined.
